(** * Legal API: search, snippet highlighting, export and court statistics

  A shallow embedding of the core of the legal case-law REST backend:

  - [services/highlight.py]  ([highlight_snippet])
  - [services/search.py]     ([search_cases])
  - [services/export.py]     ([export_cases_csv], [export_cases_jsonl],
                              [_fetch_export_rows])
  - [services/stats.py]      ([get_court_stats])
  - [main.py]                ([search], [list_courts])

  Conventions of the embedding.

  - A Python [str] is a list of characters.  Characters are code points
    below 256 (the Latin-1 range), so the model is exact for such text.
  - [Optional[T]] is [option T]; Python integers are [Z].
  - The record store is the list of rows of the [cases] table in the
    store's own order.  SQL conditions are three-valued ([option bool]),
    [LIKE], [LIMIT] and [OFFSET] follow SQLite, the default store of
    [Settings.database_url].
  - Code that can raise returns a [result]. *)

From Stdlib Require Import String Ascii List ZArith NArith Lia Bool Arith.
From Stdlib Require Import DecimalString QArith.
Import ListNotations.

Local Open Scope Z_scope.
Local Open Scope list_scope.

(* ===================================================================== *)
(** * Python values and string primitives *)
(* ===================================================================== *)

Module Py.

Definition str := list ascii.

(** A string literal as a [str]. *)
Definition lit (s : string) : str := list_ascii_of_string s.

Definition len (s : str) : Z := Z.of_nat (length s).

(** Truthiness of the values the services test with [if x:] / [x or y]. *)
Definition truthy_str (s : str) : bool :=
  match s with [] => false | _ :: _ => true end.

Definition truthy_opt_str (o : option str) : bool :=
  match o with Some s => truthy_str s | None => false end.

Definition truthy_int (z : Z) : bool := negb (z =? 0).

Definition truthy_opt_int (o : option Z) : bool :=
  match o with Some z => truthy_int z | None => false end.

(** [a or b] on optional strings: [a] when it is truthy, else [b]. *)
Definition or_opt_str (a b : option str) : option str :=
  if truthy_opt_str a then a else b.

(** [a or ""] *)
Definition or_empty (a : option str) : str :=
  match or_opt_str a (Some []) with Some s => s | None => [] end.

(** Slice index adjustment, as [PySlice_AdjustIndices] with step 1. *)
Definition adjust_index (n i : Z) : Z :=
  if i <? 0 then Z.max 0 (i + n) else Z.min i n.

(** [s[lo:hi]]; [None] stands for an omitted bound. *)
Definition slice (s : str) (lo hi : option Z) : str :=
  let n := len s in
  let a := match lo with Some i => adjust_index n i | None => 0 end in
  let b := match hi with Some j => adjust_index n j | None => n end in
  firstn (Z.to_nat (b - a)) (skipn (Z.to_nat a) s).

Definition code (c : ascii) : N := N_of_ascii c.

(** [str.isspace] on one character (code points below 256). *)
Definition isspace (c : ascii) : bool :=
  let n := code c in
  ((9 <=? n) && (n <=? 13) || (28 <=? n) && (n <=? 32)
   || (n =? 133) || (n =? 160))%N.

(** [str.split()] with no separator: maximal runs of non-space
    characters, in order.  [cur] is the run being read. *)
Fixpoint split_go (cur : str) (s : str) : list str :=
  match s with
  | [] => match cur with [] => [] | _ => [cur] end
  | c :: s' =>
      if isspace c
      then match cur with [] => split_go [] s' | _ => cur :: split_go [] s' end
      else split_go (cur ++ [c]) s'
  end.

Definition split (s : str) : list str := split_go [] s.

Fixpoint lstrip (s : str) : str :=
  match s with
  | c :: s' => if isspace c then lstrip s' else s
  | [] => []
  end.

(** [str.strip()] *)
Definition strip (s : str) : str := rev (lstrip (rev (lstrip s))).

(** [sep.join(parts)] *)
Fixpoint join (sep : str) (parts : list str) : str :=
  match parts with
  | [] => []
  | [p] => p
  | p :: ps => p ++ sep ++ join sep ps
  end.

(** Case folding of [re.IGNORECASE] on a [str] pattern: the simple
    lower-case mapping, which on code points below 256 moves A-Z and
    the accented capitals 0xC0-0xDE (0xD7 excepted) up by 32. *)
Definition uni_lower (c : ascii) : ascii :=
  let n := code c in
  if ((65 <=? n) && (n <=? 90)
      || (192 <=? n) && (n <=? 222) && negb (n =? 215))%N
  then ascii_of_N (n + 32) else c.

(** [str(n)] for an integer. *)
Definition str_of_int (z : Z) : str :=
  lit (NilZero.string_of_int (Z.to_int z)).

(** Substring test, [needle in hay]. *)
Definition contains (needle hay : str) : Prop :=
  exists pre post, hay = pre ++ needle ++ post.

Fixpoint starts_with (p s : str) : bool :=
  match p, s with
  | [], _ => true
  | _ :: _, [] => false
  | a :: p', b :: s' => Ascii.eqb a b && starts_with p' s'
  end.

Fixpoint containsb (needle hay : str) : bool :=
  starts_with needle hay
  || match hay with [] => false | _ :: h' => containsb needle h' end.

(** Exceptions the modelled code can raise. *)
Inductive exn : Type :=
| TypeError (unexpected_keyword : string)
| ZeroDivisionError.

Inductive result (A : Type) : Type :=
| Ok (a : A)
| Raise (e : exn).
Arguments Ok {A} a.
Arguments Raise {A} e.

Definition bind {A B} (r : result A) (k : A -> result B) : result B :=
  match r with Ok a => k a | Raise e => Raise e end.

(** [a // b] *)
Definition floordiv (a b : Z) : result Z :=
  if b =? 0 then Raise ZeroDivisionError else Ok (a / b).

(** A call [f(k1=v1, ..., kn=vn)] of a function whose parameters are
    [params] and which takes no [**kwargs]: a keyword that names no
    parameter raises [TypeError] before the body runs. *)
Definition call_with_keywords {A} (params keywords : list string)
           (body : result A) : result A :=
  match find (fun k => negb (existsb (String.eqb k) params)) keywords with
  | Some k => Raise (TypeError k)
  | None => body
  end.

End Py.

Notation "x <- r ;; k" := (Py.bind r (fun x => k))
  (at level 61, r at next level, right associativity).

(* ===================================================================== *)
(** * services/highlight.py *)
(* ===================================================================== *)

Module Highlight.
Import Py.

(** [re.escape(t)] compiled under [re.IGNORECASE] matches [t] literally,
    character by character up to case: [match_here tok s] says that the
    literal [tok] matches at the start of [s]. *)
Fixpoint match_here (tok s : str) : bool :=
  match tok, s with
  | [], _ => true
  | _ :: _, [] => false
  | a :: tok', b :: s' =>
      Ascii.eqb (uni_lower a) (uni_lower b) && match_here tok' s'
  end.

(** The alternation ["|".join(re.escape(t) for t in tokens)] at one
    position: some alternative matches there. *)
Definition alt_here (tokens : list str) (s : str) : bool :=
  existsb (fun t => match_here t s) tokens.

(** [re.search(pattern, text, re.IGNORECASE).start()]: the scan tries
    each position from the left, the end of the text included. *)
Fixpoint search_from (tokens : list str) (s : str) (pos : nat) : option nat :=
  if alt_here tokens s then Some pos
  else match s with
       | [] => None
       | _ :: s' => search_from tokens s' (S pos)
       end.

Definition re_search (tokens : list str) (text : str) : option nat :=
  search_from tokens text 0.

(** The tag goes as it is into the replacement template
    [<tag>\1</tag>], in which [re.sub] reads a backslash as the start of
    an escape or of a group reference.  A tag without a backslash leaves
    [\1] as the only one: the template is then the text [<tag>], the
    matched text, and the text [</tag>].  [wrap], [re_sub] and what is
    built on them are the code for such tags. *)
Definition plain_tag (tag : str) : bool :=
  forallb (fun c => negb (code c =? 92)%N) tag.

(** The replacement template [<tag>\1</tag>] around a matched text, for a
    plain tag. *)
Definition wrap (tag matched : str) : str :=
  lit "<" ++ tag ++ lit ">" ++ matched ++ lit "</" ++ tag ++ lit ">".

(** [re.sub("(" + re.escape(token) + ")", template, s, flags=IGNORECASE)]:
    leftmost non-overlapping matches, each replaced by the wrapped text
    it matched.  [skip] counts the characters of the current match that
    are still to be passed over. *)
Fixpoint sub_go (tag tok : str) (skip : nat) (s : str) : str :=
  match s with
  | [] =>
      match skip, tok with
      | O, [] => wrap tag []
      | _, _ => []
      end
  | c :: s' =>
      match skip with
      | S k => sub_go tag tok k s'
      | O =>
          if match_here tok s then
            match tok with
            | [] => wrap tag [] ++ c :: sub_go tag tok 0 s'
            | _ :: tok' =>
                wrap tag (firstn (length tok) s)
                ++ sub_go tag tok (length tok') s'
            end
          else c :: sub_go tag tok 0 s'
      end
  end.

Definition re_sub (tag tok s : str) : str := sub_go tag tok 0 s.

(** The loop [for token in tokens: snippet = re.sub(...)]. *)
Definition wrap_tokens (tag : str) (tokens : list str) (snippet : str) : str :=
  fold_left (fun sn tok => re_sub tag tok sn) tokens snippet.

(** [[t.strip() for t in query.split() if t.strip()]] *)
Definition query_tokens (query : str) : list str :=
  map strip (filter (fun t => truthy_str (strip t)) (split query)).

Definition ellipsis : str := lit "...".

(** [text[:max_length] + "..." if len(text) > max_length else text] *)
Definition truncated (text : str) (max_length : Z) : str :=
  if len text >? max_length
  then slice text None (Some max_length) ++ ellipsis
  else text.

Definition highlight_snippet (text : option str) (query : str)
           (max_length : Z) (tag : str) : option str :=
  if negb (truthy_opt_str text) || negb (truthy_str query) then
    match text with
    | Some t =>
        if truthy_str t && (len t >? max_length)
        then Some (slice t None (Some max_length) ++ ellipsis)
        else text
    | None => text
    end
  else
    match text with
    | None => None
    | Some t =>
        let tokens := query_tokens query in
        match tokens with
        | [] => Some (truncated t max_length)
        | _ :: _ =>
            let m := re_search tokens t in
            let start :=
              match m with
              | Some i => Z.max 0 (Z.of_nat i - max_length / 3)
              | None => 0
              end in
            let stop :=
              match m with
              | Some _ => start + max_length
              | None => max_length
              end in
            let snippet := slice t (Some start) (Some stop) in
            let snippet := if start >? 0 then ellipsis ++ snippet else snippet in
            let snippet := if stop <? len t then snippet ++ ellipsis else snippet in
            Some (wrap_tokens tag tokens snippet)
        end
    end.

Definition default_max_length : Z := 300.
Definition default_tag : str := lit "mark".

End Highlight.


(* ===================================================================== *)
(** * database.py: the record store *)
(* ===================================================================== *)

(** The [cases] table row, [class Case(Base)].  [id] is the primary key
    and [title] is declared [nullable=False]; the other columns are
    nullable. *)
Module Case.
Record t : Type := mk {
  id : Py.str;
  title : Py.str;
  citation : option Py.str;
  court : option Py.str;
  date : option Py.str;      (* ISO format *)
  year : option Z;
  judges : option Py.str;    (* JSON array *)
  headnote : option Py.str;
  text : option Py.str
}.
End Case.

Module Sql.
Import Py.

(** The value of a condition on one row: [None] is SQL's NULL. *)
Definition tri := option bool.

Definition or2 (a b : tri) : tri :=
  match a, b with
  | Some true, _ | _, Some true => Some true
  | Some false, Some false => Some false
  | _, _ => None
  end.

Definition and2 (a b : tri) : tri :=
  match a, b with
  | Some false, _ | _, Some false => Some false
  | Some true, Some true => Some true
  | _, _ => None
  end.

(** [or_(c1, ..., cn)] and [and_(c1, ..., cn)], for [n >= 1]. *)
Definition or_ (cs : list tri) : tri :=
  match cs with [] => Some false | c :: cs' => fold_left or2 cs' c end.

Definition and_ (cs : list tri) : tri :=
  match cs with [] => Some true | c :: cs' => fold_left and2 cs' c end.

(** A row is selected by [WHERE c] when [c] is true (not false, not NULL). *)
Definition is_true (c : tri) : bool :=
  match c with Some true => true | _ => false end.

(** ASCII-only case folding, as SQLite's [lower()] and [LIKE]. *)
Definition ascii_lower (c : ascii) : ascii :=
  let n := code c in
  if ((65 <=? n) && (n <=? 90))%N then ascii_of_N (n + 32) else c.

(** [s LIKE p] on texts without NUL: in the pattern, a percent sign
    matches any run of characters and an underscore any one character. *)
Fixpoint like (p : str) : str -> bool :=
  match p with
  | [] => fun s => match s with [] => true | _ :: _ => false end
  | c :: p' =>
      if Ascii.eqb c "%" then
        fix try (s : str) : bool :=
          like p' s || match s with [] => false | _ :: s' => try s' end
      else if Ascii.eqb c "_" then
        fun s => match s with [] => false | _ :: s' => like p' s' end
      else
        fun s => match s with
                 | [] => false
                 | d :: s' => Ascii.eqb c d && like p' s'
                 end
  end.

(** [LIKE] reads its two operands as texts that end at the first NUL
    character: what follows a NUL in the pattern or in the value is not
    looked at. *)
Fixpoint until_nul (s : str) : str :=
  match s with
  | [] => []
  | c :: s' => if (code c =? 0)%N then [] else c :: until_nul s'
  end.

(** [column.ilike(pattern)], rendered [lower(column) LIKE lower(pattern)]. *)
Definition ilike (column : option str) (pattern : str) : tri :=
  match column with
  | None => None
  | Some s =>
      Some (like (until_nul (map ascii_lower pattern)) (until_nul (map ascii_lower s)))
  end.

(** [column == value] on an integer column. *)
Definition eq_int (column : option Z) (value : Z) : tri :=
  match column with None => None | Some z => Some (z =? value) end.

(** Comparison of text values under the BINARY collation. *)
Fixpoint str_compare (a b : str) : comparison :=
  match a, b with
  | [], [] => Eq
  | [], _ :: _ => Lt
  | _ :: _, [] => Gt
  | x :: a', y :: b' =>
      match N.compare (code x) (code y) with
      | Eq => str_compare a' b'
      | o => o
      end
  end.

(** [column >= value] and [column <= value] on a text column. *)
Definition ge_str (column : option str) (value : str) : tri :=
  match column with
  | None => None
  | Some s => Some (match str_compare s value with Lt => false | _ => true end)
  end.

Definition le_str (column : option str) (value : str) : tri :=
  match column with
  | None => None
  | Some s => Some (match str_compare s value with Gt => false | _ => true end)
  end.

(** [stmt.where(and_( *conditions))]: the rows on which every condition
    is true; with no condition the statement is left as it is.  The
    statements have no [ORDER BY]: [rows] stands for the rows in the order
    in which the store scans them for the statement at hand, an order
    that may differ from one statement to another. *)
Definition where_ {R} (conditions : list (R -> tri)) (rows : list R) : list R :=
  match conditions with
  | [] => rows
  | _ :: _ => filter (fun r => is_true (and_ (map (fun c => c r) conditions))) rows
  end.

(** [LIMIT n]: a negative [n] puts no bound on the rows. *)
Definition limit {R} (n : Z) (rows : list R) : list R :=
  if n <? 0 then rows else firstn (Z.to_nat n) rows.

(** [OFFSET n]: a negative [n] is taken as zero. *)
Definition offset {R} (n : Z) (rows : list R) : list R :=
  skipn (Z.to_nat n) rows.

End Sql.

(* ===================================================================== *)
(** * models.py *)
(* ===================================================================== *)

Module CaseResponse.
Record t : Type := mk {
  id : Py.str;
  title : Py.str;
  citation : option Py.str;
  court : option Py.str;
  date : option Py.str;
  snippet : option Py.str;
  relevance : option Q
}.
End CaseResponse.

Module SearchResponse.
Record t : Type := mk {
  total : Z;
  page : Z;
  per_page : Z;
  total_pages : Z;
  results : list CaseResponse.t
}.
End SearchResponse.

(* ===================================================================== *)
(** * services/search.py *)
(* ===================================================================== *)

Module Search.
Import Py.

Definition percent : str := lit "%".

(** The list [conditions] built by [search_cases], lines 34-59. *)
Definition conditions (query : str) (court : option str) (year : option Z)
           (date_from date_to : option str) : list (Case.t -> Sql.tri) :=
  (if truthy_str query then
     let search_term := percent ++ query ++ percent in
     [fun c => Sql.or_ [Sql.ilike (Some (Case.title c)) search_term;
                        Sql.ilike (Case.headnote c) search_term;
                        Sql.ilike (Case.text c) search_term;
                        Sql.ilike (Case.citation c) search_term]]
   else [])
  ++ (match court with
      | Some ct =>
          if truthy_str ct
          then [fun c => Sql.ilike (Case.court c) (percent ++ ct ++ percent)]
          else []
      | None => []
      end)
  ++ (match year with
      | Some y => if truthy_int y then [fun c => Sql.eq_int (Case.year c) y] else []
      | None => []
      end)
  ++ (match date_from with
      | Some d => if truthy_str d then [fun c => Sql.ge_str (Case.date c) d] else []
      | None => []
      end)
  ++ (match date_to with
      | Some d => if truthy_str d then [fun c => Sql.le_str (Case.date c) d] else []
      | None => []
      end).

(** Line 81:
    [case.headnote or (case.text[:300] + "..." if case.text else None)] *)
Definition snippet_of (case : Case.t) : option str :=
  or_opt_str (Case.headnote case)
    (match Case.text case with
     | Some t =>
         if truthy_str t
         then Some (slice t None (Some 300) ++ lit "...")
         else None
     | None => None
     end).

Definition format_result (case : Case.t) : CaseResponse.t :=
  {| CaseResponse.id := Case.id case;
     CaseResponse.title := Case.title case;
     CaseResponse.citation := Case.citation case;
     CaseResponse.court := Case.court case;
     CaseResponse.date := Case.date case;
     CaseResponse.snippet := snippet_of case;
     CaseResponse.relevance := Some 1%Q |}.

(** The parameters of [search_cases], lines 14-23. *)
Definition search_cases_params : list string :=
  ["db"; "query"; "court"; "year"; "date_from"; "date_to"; "page"; "per_page"]%string.

Definition search_cases (db : list Case.t) (query : str) (court : option str)
           (year : option Z) (date_from date_to : option str)
           (page per_page : Z) : result SearchResponse.t :=
  let stmt := Sql.where_ (conditions query court year date_from date_to) db in
  let total := Z.of_nat (length stmt) in
  let offset := (page - 1) * per_page in
  let cases := Sql.limit per_page (Sql.offset offset stmt) in
  let results := map format_result cases in
  total_pages <- floordiv (total + per_page - 1) per_page ;;
  Ok {| SearchResponse.total := total;
        SearchResponse.page := page;
        SearchResponse.per_page := per_page;
        SearchResponse.total_pages := total_pages;
        SearchResponse.results := results |}.

End Search.

(* ===================================================================== *)
(** * main.py: the search endpoint *)
(* ===================================================================== *)

Module Main.
Import Py.

Record Settings : Type := {
  per_page_default : Z;
  per_page_max : Z
}.

Definition settings : Settings :=
  {| per_page_default := 20; per_page_max := 100 |}.

(** [GET /api/v1/search], lines 103-139, after request parsing. *)
Definition search (st : Settings) (db : list Case.t) (q : str)
           (court : option str) (year : option Z)
           (date_from date_to : option str) (page : Z) (per_page : option Z)
           (highlight : bool) : result SearchResponse.t :=
  let per_page :=
    match per_page with
    | Some p => if truthy_int p then p else per_page_default st
    | None => per_page_default st
    end in
  let per_page := Z.min per_page (per_page_max st) in
  call_with_keywords Search.search_cases_params
    ["db"; "query"; "court"; "year"; "date_from"; "date_to"; "page";
     "per_page"; "highlight"]%string
    (Search.search_cases db q court year date_from date_to page per_page).

End Main.

(* ===================================================================== *)
(** * services/export.py *)
(* ===================================================================== *)

Module ExportService.
Import Py.

(** Maximum rows for a single export. *)
Definition MAX_EXPORT_ROWS : Z := 10000.

Definition percent : str := lit "%".

(** The list [conditions] built by [_fetch_export_rows], lines 103-121. *)
Definition conditions (query : str) (court : option str) (year : option Z)
           (date_from date_to : option str) : list (Case.t -> Sql.tri) :=
  (if truthy_str query then
     let term := percent ++ query ++ percent in
     [fun c => Sql.or_ [Sql.ilike (Some (Case.title c)) term;
                        Sql.ilike (Case.headnote c) term;
                        Sql.ilike (Case.text c) term;
                        Sql.ilike (Case.citation c) term]]
   else [])
  ++ (match court with
      | Some ct =>
          if truthy_str ct
          then [fun c => Sql.ilike (Case.court c) (percent ++ ct ++ percent)]
          else []
      | None => []
      end)
  ++ (match year with
      | Some y => if truthy_int y then [fun c => Sql.eq_int (Case.year c) y] else []
      | None => []
      end)
  ++ (match date_from with
      | Some d => if truthy_str d then [fun c => Sql.ge_str (Case.date c) d] else []
      | None => []
      end)
  ++ (match date_to with
      | Some d => if truthy_str d then [fun c => Sql.le_str (Case.date c) d] else []
      | None => []
      end).

(** Build query, apply filters, and fetch rows. *)
Definition _fetch_export_rows (db : list Case.t) (query : str)
           (court : option str) (year : option Z)
           (date_from date_to : option str) (limit : Z) : list Case.t :=
  let stmt := Sql.where_ (conditions query court year date_from date_to) db in
  Sql.limit (Z.min limit MAX_EXPORT_ROWS) stmt.

(** ** The CSV writer ([csv.writer], the default "excel" dialect) *)

Definition comma : ascii := ","%char.
Definition dquote : ascii := ascii_of_N 34.
Definition cr : ascii := ascii_of_N 13.
Definition lf : ascii := ascii_of_N 10.
Definition crlf : str := [cr; lf].

(** A field is quoted when it holds the delimiter, the quote character
    or a character of the line terminator (QUOTE_MINIMAL). *)
Definition needs_quote (c : ascii) : bool :=
  Ascii.eqb c comma || Ascii.eqb c dquote || Ascii.eqb c cr || Ascii.eqb c lf.

(** Quote characters are doubled inside a quoted field. *)
Definition double_quotes (f : str) : str :=
  flat_map (fun c => if Ascii.eqb c dquote then [dquote; dquote] else [c]) f.

Definition csv_field (f : str) : str :=
  if existsb needs_quote f then dquote :: double_quotes f ++ [dquote] else f.

(** [writer.writerow(fields)]: the text appended to the buffer.  A row
    of one empty field is written as a quoted empty field, so that it is
    not taken for a blank line. *)
Definition writerow (fields : list str) : str :=
  match fields with
  | [[]] => [dquote; dquote] ++ crlf
  | _ => join [comma] (map csv_field fields) ++ crlf
  end.

Definition csv_header : list str :=
  [lit "id"; lit "title"; lit "citation"; lit "court"; lit "date";
   lit "year"; lit "judges"; lit "headnote"].

(** [c.year or ""], as the writer prints it. *)
Definition year_or_empty (y : option Z) : str :=
  match y with
  | Some z => if truthy_int z then str_of_int z else []
  | None => []
  end.

(** The list passed to [writer.writerow] for one case, lines 43-52. *)
Definition csv_record (c : Case.t) : list str :=
  [Case.id c;
   Case.title c;
   or_empty (Case.citation c);
   or_empty (Case.court c);
   or_empty (Case.date c);
   year_or_empty (Case.year c);
   or_empty (Case.judges c);
   slice (or_empty (Case.headnote c)) None (Some 500)].

(** Returns (csv_string, row_count). *)
Definition export_cases_csv (db : list Case.t) (query : str)
           (court : option str) (year : option Z)
           (date_from date_to : option str) (limit : Z) : str * Z :=
  let cases := _fetch_export_rows db query court year date_from date_to limit in
  let buf := writerow csv_header in
  let buf := fold_left (fun b c => b ++ writerow (csv_record c)) cases buf in
  (buf, Z.of_nat (length cases)).

(** ** [json.dumps(obj, ensure_ascii=False)] *)

Definition backslash : ascii := ascii_of_N 92.

Definition hex_digit (n : N) : ascii :=
  nth (N.to_nat n) (lit "0123456789abcdef") "0"%char.

(** The escape of one character inside a JSON string: the quote, the
    backslash and the control characters below 0x20 are escaped, every
    other character is written as it is. *)
Definition json_escape (c : ascii) : str :=
  let n := code c in
  if Ascii.eqb c dquote then [backslash; dquote]
  else if Ascii.eqb c backslash then [backslash; backslash]
  else if (n =? 10)%N then [backslash; "n"%char]
  else if (n =? 13)%N then [backslash; "r"%char]
  else if (n =? 9)%N then [backslash; "t"%char]
  else if (n =? 8)%N then [backslash; "b"%char]
  else if (n =? 12)%N then [backslash; "f"%char]
  else if (n <? 32)%N then
    [backslash; "u"%char; "0"%char; "0"%char;
     hex_digit (n / 16); hex_digit (n mod 16)]
  else [c].

Definition json_string (s : str) : str :=
  dquote :: flat_map json_escape s ++ [dquote].

Definition json_opt_str (o : option str) : str :=
  match o with Some s => json_string s | None => lit "null" end.

Definition json_opt_int (o : option Z) : str :=
  match o with Some z => str_of_int z | None => lit "null" end.

(** A JSON object from its members, in insertion order. *)
Definition json_object (members : list (str * str)) : str :=
  lit "{"
  ++ join (lit ", ") (map (fun kv => json_string (fst kv) ++ lit ": " ++ snd kv) members)
  ++ lit "}".

(** The dictionary [obj] of lines 72-81, serialised. *)
Definition dumps_case (c : Case.t) : str :=
  json_object
    [(lit "id", json_string (Case.id c));
     (lit "title", json_string (Case.title c));
     (lit "citation", json_opt_str (Case.citation c));
     (lit "court", json_opt_str (Case.court c));
     (lit "date", json_opt_str (Case.date c));
     (lit "year", json_opt_int (Case.year c));
     (lit "judges", json_opt_str (Case.judges c));
     (lit "headnote", json_opt_str (Case.headnote c))].

(** Returns (jsonl_string, row_count). *)
Definition export_cases_jsonl (db : list Case.t) (query : str)
           (court : option str) (year : option Z)
           (date_from date_to : option str) (limit : Z) : str * Z :=
  let cases := _fetch_export_rows db query court year date_from date_to limit in
  let lines := map dumps_case cases in
  (join [lf] lines, Z.of_nat (length cases)).

End ExportService.

(* ===================================================================== *)
(** * services/stats.py and the courts list of main.py *)
(* ===================================================================== *)

Module Stats.
Import Py.

Definition str_eqb (a b : str) : bool :=
  match Sql.str_compare a b with Eq => true | _ => false end.

(** Equality of grouping keys: [GROUP BY] puts the NULLs in one group. *)
Definition key_eqb (a b : option str) : bool :=
  match a, b with
  | None, None => true
  | Some x, Some y => str_eqb x y
  | _, _ => false
  end.

(** The distinct values of a column, each at its first occurrence. *)
Fixpoint distinct (keys : list (option str)) : list (option str) :=
  match keys with
  | [] => []
  | k :: ks => k :: filter (fun k' => negb (key_eqb k k')) (distinct ks)
  end.

(** [count(Case.id)] within the group of [k]. *)
Definition group_count (db : list Case.t) (k : option str) : Z :=
  Z.of_nat (length (filter (fun c => key_eqb k (Case.court c)) db)).

(** [select(Case.court, count(Case.id)).group_by(Case.court)] *)
Definition group_by_court (db : list Case.t) : list (option str * Z) :=
  map (fun k => (k, group_count db k)) (distinct (map Case.court db)).

(** [ORDER BY count DESC], as a stable insertion sort: rows of equal
    count stay in the order of the groups. *)
Fixpoint insert_desc (r : option str * Z) (rows : list (option str * Z))
  : list (option str * Z) :=
  match rows with
  | [] => [r]
  | r' :: rows' =>
      if snd r' <=? snd r then r :: rows else r' :: insert_desc r rows'
  end.

Definition order_by_count_desc (rows : list (option str * Z))
  : list (option str * Z) :=
  fold_right insert_desc [] rows.

(** One dictionary of the list that [get_court_stats] returns. *)
Record CourtCount : Type := {
  court : option str;
  count : Z
}.

Definition unknown : str := lit "Unknown".

(** Get case count by court. *)
Definition get_court_stats (db : list Case.t) : list CourtCount :=
  let rows := order_by_count_desc (group_by_court db) in
  map (fun row => {| court := or_opt_str (fst row) (Some unknown);
                     count := snd row |}) rows.

(** [GET /api/v1/courts] (main.py, lines 266-275): the value of the
    ["courts"] key. *)
Definition list_courts (db : list Case.t) : list (option str) :=
  let courts := get_court_stats db in
  map court courts.

End Stats.

(* ===================================================================== *)
(** * Sample rows *)
(* ===================================================================== *)

Module Samples.
Import Py.

(** tests/conftest.py, [make_case_row] with its default arguments. *)
Definition make_case_row : Case.t :=
  {| Case.id := lit "case_001";
     Case.title := lit "Smith v. State";
     Case.citation := Some (lit "2024 SC 445");
     Case.court := Some (lit "Supreme Court");
     Case.date := Some (lit "2024-03-15");
     Case.year := Some 2024;
     Case.judges :=
       Some (lit "[" ++ [ExportService.dquote] ++ lit "Justice A"
             ++ [ExportService.dquote] ++ lit ", " ++ [ExportService.dquote]
             ++ lit "Justice B" ++ [ExportService.dquote] ++ lit "]");
     Case.headnote := Some (lit "Brief summary of the case.");
     Case.text := Some (lit "Full judgment text goes here.") |}.

(** The same row without a headnote. *)
Definition row_without_headnote : Case.t :=
  {| Case.id := lit "case_002";
     Case.title := lit "Smith v. State";
     Case.citation := Some (lit "2024 SC 445");
     Case.court := Some (lit "Supreme Court");
     Case.date := Some (lit "2024-03-15");
     Case.year := Some 2024;
     Case.judges := None;
     Case.headnote := None;
     Case.text := Some (lit "Full judgment text goes here.") |}.

(** A row whose court is NULL. *)
Definition row_without_court : Case.t :=
  {| Case.id := lit "case_003";
     Case.title := lit "Doe v. Roe";
     Case.citation := None;
     Case.court := None;
     Case.date := None;
     Case.year := None;
     Case.judges := None;
     Case.headnote := None;
     Case.text := None |}.

(** A row whose headnote has 600 characters. *)
Definition row_with_long_headnote : Case.t :=
  {| Case.id := lit "case_004";
     Case.title := lit "Smith v. Jones";
     Case.citation := None;
     Case.court := Some (lit "High Court");
     Case.date := Some (lit "2023-01-10");
     Case.year := Some 2023;
     Case.judges := None;
     Case.headnote := Some (repeat "a"%char 600);
     Case.text := None |}.

Definition sample_db : list Case.t :=
  [make_case_row; row_without_headnote; row_without_court; row_with_long_headnote].

End Samples.

(* ===================================================================== *)
(** * Notions used to state the properties *)
(* ===================================================================== *)

Module Spec.
Import Py.

(** The rows a statement selects: those on which all conditions hold,
    every row when there is no condition. *)
Definition holds_all {R} (conditions : list (R -> Sql.tri)) (r : R) : bool :=
  forallb (fun c => Sql.is_true (c r)) conditions.

(** No character of [t] is white space. *)
Definition nospace (t : str) : bool := forallb (fun c => negb (isspace c)) t.

(** The token [tok] occurs in [text] at position [i], up to case. *)
Definition occurs_at (tok text : str) (i : nat) : Prop :=
  (i + length tok <= length text)%nat
  /\ map uni_lower (firstn (length tok) (skipn i text)) = map uni_lower tok.

Definition some_token_at (tokens : list str) (text : str) (i : nat) : Prop :=
  exists tok, In tok tokens /\ occurs_at tok text i.

(** [i] is the position of the leftmost match of any token. *)
Definition leftmost_match (tokens : list str) (text : str) (i : nat) : Prop :=
  some_token_at tokens text i
  /\ forall j, (j < i)%nat -> ~ some_token_at tokens text j.

Definition no_match (tokens : list str) (text : str) : Prop :=
  forall i, ~ some_token_at tokens text i.

(** ** Reading back what the export writes *)

(** A reader of CSV text in the "excel" dialect: the states of the
    scanner and the scan, one character at a time.  [field] is the field
    being read and [record] the fields of the current record read so far. *)
Inductive csv_state : Type :=
| StartRecord | StartField | InField | InQuoted | QuoteSeen | EatLf.

Definition is_char (c d : ascii) : bool := Ascii.eqb c d.

(** The record that ends where a field would start: after a comma it
    has one more, empty, field; a blank line is a record of no field. *)
Definition line_end (st : csv_state) (record : list str) : list str :=
  match st with
  | StartField => record ++ [[]]
  | _ => []
  end.

Fixpoint csv_read (st : csv_state) (field : str) (record : list str) (s : str)
  : list (list str) :=
  match s with
  | [] =>
      match st with
      | StartRecord | EatLf => []
      | _ => [record ++ [field]]
      end
  | c :: s' =>
      match st with
      | InField =>
          if is_char c ExportService.comma then csv_read StartField [] (record ++ [field]) s'
          else if is_char c ExportService.cr then (record ++ [field]) :: csv_read EatLf [] [] s'
          else if is_char c ExportService.lf then (record ++ [field]) :: csv_read StartRecord [] [] s'
          else csv_read InField (field ++ [c]) record s'
      | InQuoted =>
          if is_char c ExportService.dquote then csv_read QuoteSeen field record s'
          else csv_read InQuoted (field ++ [c]) record s'
      | QuoteSeen =>
          if is_char c ExportService.dquote
          then csv_read InQuoted (field ++ [ExportService.dquote]) record s'
          else if is_char c ExportService.comma then csv_read StartField [] (record ++ [field]) s'
          else if is_char c ExportService.cr then (record ++ [field]) :: csv_read EatLf [] [] s'
          else if is_char c ExportService.lf then (record ++ [field]) :: csv_read StartRecord [] [] s'
          else csv_read InField (field ++ [c]) record s'
      | StartRecord | StartField | EatLf =>
          if match st with EatLf => is_char c ExportService.lf | _ => false end
          then csv_read StartRecord [] [] s'
          else if is_char c ExportService.dquote then csv_read InQuoted [] record s'
          else if is_char c ExportService.comma then csv_read StartField [] (record ++ [[]]) s'
          else if is_char c ExportService.cr
               then line_end st record :: csv_read EatLf [] [] s'
          else if is_char c ExportService.lf
               then line_end st record :: csv_read StartRecord [] [] s'
          else csv_read InField [c] record s'
      end
  end.

(** The states in which the reader is before a field. *)
Definition at_start (st : csv_state) : Prop := st = StartRecord \/ st = StartField.

(** The records of a CSV text. *)
Definition csv_records (s : str) : list (list str) := csv_read StartRecord [] [] s.

(** The lines of a text whose lines are separated by single line feeds;
    the empty text has no line. *)
Fixpoint lines_go (cur : str) (s : str) : list str :=
  match s with
  | [] => [cur]
  | c :: s' =>
      if is_char c ExportService.lf then cur :: lines_go [] s'
      else lines_go (cur ++ [c]) s'
  end.

Definition lines (s : str) : list str :=
  match s with [] => [] | _ :: _ => lines_go [] s end.

(** The value of a hexadecimal digit. *)
Definition hex_value (c : ascii) : option N :=
  let n := code c in
  if ((48 <=? n) && (n <=? 57))%N then Some (n - 48)%N
  else if ((97 <=? n) && (n <=? 102))%N then Some (n - 87)%N
  else None.

(** A reader of the body of a JSON string, after its opening quote: the
    text it denotes and what follows its closing quote. *)
Fixpoint json_read_string (s : str) : option (str * str) :=
  match s with
  | [] => None
  | c :: s' =>
      if is_char c ExportService.dquote then Some ([], s')
      else if is_char c ExportService.backslash then
        match s' with
        | e :: s'' =>
            let keep (d : ascii) :=
              match json_read_string s'' with
              | Some (t, rest) => Some (d :: t, rest)
              | None => None
              end in
            if is_char e ExportService.dquote then keep ExportService.dquote
            else if is_char e ExportService.backslash then keep ExportService.backslash
            else if is_char e "n" then keep (ascii_of_N 10)
            else if is_char e "r" then keep (ascii_of_N 13)
            else if is_char e "t" then keep (ascii_of_N 9)
            else if is_char e "b" then keep (ascii_of_N 8)
            else if is_char e "f" then keep (ascii_of_N 12)
            else if is_char e "u" then
              match s'' with
              | h1 :: h2 :: h3 :: h4 :: s3 =>
                  match hex_value h1, hex_value h2, hex_value h3, hex_value h4 with
                  | Some 0%N, Some 0%N, Some a, Some b =>
                      match json_read_string s3 with
                      | Some (t, rest) => Some (ascii_of_N (16 * a + b) :: t, rest)
                      | None => None
                      end
                  | _, _, _, _ => None
                  end
              | _ => None
              end
            else None
        | [] => None
        end
      else
        match json_read_string s' with
        | Some (t, rest) => Some (c :: t, rest)
        | None => None
        end
  end.

(** The text denoted by a JSON string literal. *)
Definition json_loads_string (s : str) : option str :=
  match s with
  | c :: s' =>
      if is_char c ExportService.dquote then
        match json_read_string s' with
        | Some (t, []) => Some t
        | _ => None
        end
      else None
  | [] => None
  end.
(** No character of [s] is a line feed. *)
Definition no_lf (s : str) : bool :=
  forallb (fun c => negb (is_char c ExportService.lf)) s.

End Spec.

(* ===================================================================== *)
(** * services/stats.py: overall and per-year statistics *)
(* ===================================================================== *)

Module StatsService.
Import Py.

(** Equality of the grouping keys of an integer column. *)
Definition year_key_eqb (a b : option Z) : bool :=
  match a, b with
  | None, None => true
  | Some x, Some y => x =? y
  | _, _ => false
  end.

(** The order of the values of an integer column: NULL comes before
    every number. *)
Definition year_key_ltb (a b : option Z) : bool :=
  match a, b with
  | None, Some _ => true
  | Some x, Some y => x <? y
  | _, _ => false
  end.

(** [column.isnot(None)] *)
Definition isnot_null {A} (column : option A) : Sql.tri :=
  match column with Some _ => Some true | None => Some false end.

Fixpoint distinct_years (keys : list (option Z)) : list (option Z) :=
  match keys with
  | [] => []
  | k :: ks => k :: filter (fun k' => negb (year_key_eqb k k')) (distinct_years ks)
  end.

(** [select(Case.year, count(Case.id)).where(...).group_by(Case.year)] on
    the selected rows. *)
Definition group_by_year (rows : list Case.t) : list (option Z * Z) :=
  map (fun k => (k, Z.of_nat (length (filter (fun c => year_key_eqb k (Case.year c)) rows))))
      (distinct_years (map Case.year rows)).

(** [ORDER BY year DESC] *)
Fixpoint insert_year_desc (r : option Z * Z) (rows : list (option Z * Z))
  : list (option Z * Z) :=
  match rows with
  | [] => [r]
  | r' :: rows' =>
      if year_key_ltb (fst r) (fst r') then r' :: insert_year_desc r rows'
      else r :: rows
  end.

Definition order_by_year_desc (rows : list (option Z * Z)) : list (option Z * Z) :=
  fold_right insert_year_desc [] rows.

(** One dictionary of the list that [get_year_stats] returns. *)
Record YearCount : Type := {
  year : option Z;
  count : Z
}.

(** Get case count by year. *)
Definition get_year_stats (db : list Case.t) : list YearCount :=
  let selected := Sql.where_ [fun c => isnot_null (Case.year c)] db in
  let rows := order_by_year_desc (group_by_year selected) in
  map (fun row => {| year := fst row; count := snd row |}) rows.

(** [min(column)] and [max(column)]: over the values that are not NULL,
    NULL when there is none. *)
Definition sql_min (column : list (option Z)) : option Z :=
  fold_right (fun v acc =>
                match v, acc with
                | Some x, Some m => Some (Z.min x m)
                | Some x, None => Some x
                | None, _ => acc
                end) None column.

Definition sql_max (column : list (option Z)) : option Z :=
  fold_right (fun v acc =>
                match v, acc with
                | Some x, Some m => Some (Z.max x m)
                | Some x, None => Some x
                | None, _ => acc
                end) None column.

(** [count(distinct(Case.court))]: the distinct values that are not NULL. *)
Definition count_distinct_courts (db : list Case.t) : Z :=
  Z.of_nat (length (filter (fun k => match k with Some _ => true | None => false end)
                           (Stats.distinct (map Case.court db)))).

Record StatsResponse : Type := {
  total_cases : Z;
  total_courts : Z;
  year_range : option (Z * Z);     (* {"min": ..., "max": ...} *)
  avg_text_length : option Z
}.

(** [int(x)] for the number a float denotes: truncation towards zero. *)
Definition int_of_float (x : Q) : Z := Z.quot (Qnum x) (Zpos (Qden x)).

Definition truthy_float (x : Q) : bool := negb (Qnum x =? 0).

(** Get overall statistics.  [avg_length] is the value of
    [select(func.avg(func.length(Case.text)))], a float computed by the
    store, given as the number it denotes. *)
Definition get_statistics (avg_length : option Q) (db : list Case.t) : StatsResponse :=
  let total := Z.of_nat (length db) in
  let courts := count_distinct_courts db in
  let min_year := sql_min (map Case.year db) in
  let max_year := sql_max (map Case.year db) in
  let year_range :=
    if truthy_opt_int min_year && truthy_opt_int max_year then
      match min_year, max_year with
      | Some lo, Some hi => Some (lo, hi)
      | _, _ => None
      end
    else None in
  {| total_cases := total;
     total_courts := courts;
     year_range := year_range;
     avg_text_length :=
       match avg_length with
       | Some a => if truthy_float a then Some (int_of_float a) else None
       | None => None
       end |}.

End StatsService.

(* ===================================================================== *)
(** * main.py: the API key check and the export endpoints *)
(* ===================================================================== *)

Module Endpoints.
Import Py.

(** The outcome of a handler: a value, or [HTTPException(status_code)]. *)
Inductive http_result (A : Type) : Type :=
| Pass (a : A)
| HTTPException (status_code : Z) (detail : str).
Arguments Pass {A} a.
Arguments HTTPException {A} status_code detail.

(** The two fields of [Settings] that guard the API. *)
Record KeySettings : Type := {
  api_key_enabled : bool;
  api_key : str
}.

(** The defaults of [class Settings]. *)
Definition key_settings : KeySettings :=
  {| api_key_enabled := false; api_key := [] |}.

(** Verify API key if authentication is enabled.  The argument is the
    value of the [X-API-Key] header, [None] when the header is absent. *)
Definition verify_api_key (st : KeySettings) (key : option str) : http_result bool :=
  if negb (api_key_enabled st) then Pass true
  else if negb (truthy_opt_str key)
          || negb (match key with
                   | Some k => Stats.str_eqb k (api_key st)
                   | None => false
                   end)
       then HTTPException 403 (lit "Invalid API key")
       else Pass true.

(** [PlainTextResponse(content, media_type, headers)] *)
Record PlainTextResponse : Type := {
  content : str;
  media_type : str;
  headers : list (str * str)
}.

(** The body of [export_csv], lines 217-228. *)
Definition export_csv (db : list Case.t) (q : str) (court : option str)
           (year : option Z) (date_from date_to : option str) (limit : Z)
  : PlainTextResponse :=
  let '(csv_text, count) :=
    ExportService.export_cases_csv db q court year date_from date_to limit in
  {| content := csv_text;
     media_type := lit "text/csv";
     headers :=
       [(lit "Content-Disposition",
         lit "attachment; filename=legal-export-" ++ str_of_int count ++ lit "-cases.csv");
        (lit "X-Export-Count", str_of_int count)] |}.

(** The body of [export_jsonl], lines 249-260. *)
Definition export_jsonl (db : list Case.t) (q : str) (court : option str)
           (year : option Z) (date_from date_to : option str) (limit : Z)
  : PlainTextResponse :=
  let '(jsonl_text, count) :=
    ExportService.export_cases_jsonl db q court year date_from date_to limit in
  {| content := jsonl_text;
     media_type := lit "application/x-ndjson";
     headers :=
       [(lit "Content-Disposition",
         lit "attachment; filename=legal-export-" ++ str_of_int count ++ lit "-cases.jsonl");
        (lit "X-Export-Count", str_of_int count)] |}.

(** [headers[name]] *)
Fixpoint header (name : str) (hs : list (str * str)) : option str :=
  match hs with
  | [] => None
  | (k, v) :: hs' => if Stats.str_eqb k name then Some v else header name hs'
  end.

End Endpoints.

(* ===================================================================== *)
(** * middleware.py: the logging filter *)
(* ===================================================================== *)

Module Middleware.

(** The attributes of a log record, by name; the first binding of a name
    is its value.  [V] is the type of the attribute values. *)
Definition log_record (V : Type) : Type := list (string * V).

(** [getattr(record, key)], [None] when the record has no such attribute. *)
Fixpoint getattr {V} (record : log_record V) (key : string) : option V :=
  match record with
  | [] => None
  | (k, v) :: record' => if String.eqb k key then Some v else getattr record' key
  end.

(** [hasattr(record, key)] *)
Definition hasattr {V} (record : log_record V) (key : string) : bool :=
  match getattr record key with Some _ => true | None => false end.

(** [setattr(record, key, value)] *)
Definition setattr {V} (record : log_record V) (key : string) (value : V) : log_record V :=
  (key, value) :: record.

(** The keys of the loop of [_Filter.filter], line 63. *)
Definition extra_keys : list string :=
  ["request_id"; "method"; "path"; "query"; "status"; "duration_ms"; "client"]%string.

(** [_Filter.filter]: ensure extra fields exist even for non-request
    logs.  [dash] is the value ["-"]; the result is the returned flag and
    the record after the call. *)
Definition ensure {V} (dash : V) (record : log_record V) (key : string) : log_record V :=
  if negb (hasattr record key) then setattr record key dash else record.

Definition filter {V} (dash : V) (record : log_record V) : bool * log_record V :=
  let record := fold_left (ensure dash) extra_keys record in
  (true, record).

End Middleware.

(* ===================================================================== *)
(** * Further notions used to state properties *)
(* ===================================================================== *)

Module MoreSpec.
Import Py.

(** The results of one page of a search; no result when the call raises. *)
Definition page_results (db : list Case.t) (query : str) (court : option str)
           (year : option Z) (date_from date_to : option str)
           (per_page : Z) (page : nat) : list CaseResponse.t :=
  match Search.search_cases db query court year date_from date_to
          (Z.of_nat page) per_page with
  | Ok resp => SearchResponse.results resp
  | Raise _ => []
  end.

(** The number of pages of a search; 0 when the call raises. *)
Definition page_count (db : list Case.t) (query : str) (court : option str)
           (year : option Z) (date_from date_to : option str)
           (per_page : Z) : nat :=
  match Search.search_cases db query court year date_from date_to 1 per_page with
  | Ok resp => Z.to_nat (SearchResponse.total_pages resp)
  | Raise _ => 0%nat
  end.

(** ** Matching up to case, in the words of the specification *)

(** A capital letter: A to Z, or an accented capital of Latin-1 (0xC0 to
    0xDE, the multiplication sign 0xD7 apart). *)
Definition is_capital (c : ascii) : bool :=
  let n := code c in
  ((65 <=? n) && (n <=? 90) || (192 <=? n) && (n <=? 222) && negb (n =? 215))%N.

(** Two characters are the same up to case: they are equal, or one is a
    capital letter and the other its small letter, 32 places after it. *)
Definition same_letter (a b : ascii) : bool :=
  Ascii.eqb a b
  || is_capital a && (code b =? code a + 32)%N
  || is_capital b && (code a =? code b + 32)%N.

Definition same_text (a b : str) : Prop :=
  Forall2 (fun x y => same_letter x y = true) a b.

(** The token matches the text at position [i], case-insensitively. *)
Definition token_at (tok text : str) (i : nat) : Prop :=
  (i + length tok <= length text)%nat
  /\ same_text tok (firstn (length tok) (skipn i text)).

(** [i] is the position of the leftmost match of any of the tokens. *)
Definition first_match (tokens : list str) (text : str) (i : nat) : Prop :=
  (exists tok, In tok tokens /\ token_at tok text i)
  /\ forall j tok, (j < i)%nat -> In tok tokens -> ~ token_at tok text j.

(** No token matches the text anywhere. *)
Definition nothing_matches (tokens : list str) (text : str) : Prop :=
  forall i tok, In tok tokens -> ~ token_at tok text i.

(** [s] holds neither of the wildcards of [LIKE]. *)
Definition wildcard_free (s : str) : bool :=
  forallb (fun c => negb (Ascii.eqb c "%" || Ascii.eqb c "_")) s.

(** [s] holds no NUL character. *)
Definition nul_free (s : str) : bool := forallb (fun c => negb (code c =? 0)%N) s.

(** The text [p] is within the value of the column, up to ASCII case;
    of the value, the part before its first NUL character counts. *)
Definition ci_in (p : str) (column : option str) : bool :=
  match column with
  | Some s => containsb (map Sql.ascii_lower p) (map Sql.ascii_lower (Sql.until_nul s))
  | None => false
  end.

(** [s] is made of percent signs only. *)
Definition all_percent (s : str) : bool := forallb (fun c => Ascii.eqb c "%") s.

(** [s] holds no full stop. *)
Definition dot_free (s : str) : bool := forallb (fun c => negb (Ascii.eqb c ".")) s.

(** The rows are in the order of decreasing counts. *)
Fixpoint counts_descending (counts : list Z) : Prop :=
  match counts with
  | [] => True
  | c :: cs => (forall c', In c' cs -> c' <= c) /\ counts_descending cs
  end.

(** The numbers are strictly decreasing. *)
Fixpoint strictly_descending (zs : list Z) : Prop :=
  match zs with
  | [] => True
  | z :: zs' => (forall z', In z' zs' -> z' < z) /\ strictly_descending zs'
  end.

Definition sum (zs : list Z) : Z := fold_right Z.add 0 zs.

(** The values of a column that are not NULL. *)
Definition some_values {A} (column : list (option A)) : list A :=
  flat_map (fun o => match o with Some a => [a] | None => [] end) column.

Definition is_null {A} (o : option A) : bool :=
  match o with Some _ => false | None => true end.

End MoreSpec.

(* ===================================================================== *)
(** * Properties of the search service and of the search endpoint *)
(* ===================================================================== *)

Module SearchProps.
Import Py Spec.

(** The conjunction of a non-empty list of conditions is true exactly
    when each of them is. *)
Lemma and2_true (a b : Sql.tri) :
  Sql.is_true (Sql.and2 a b) = Sql.is_true a && Sql.is_true b.
Proof. destruct a as [[|]|], b as [[|]|]; reflexivity. Qed.

Lemma fold_and2_true (cs : list Sql.tri) (c : Sql.tri) :
  Sql.is_true (fold_left Sql.and2 cs c) = Sql.is_true c && forallb Sql.is_true cs.
Proof.
  revert c. induction cs as [|d cs IH]; intro c; simpl.
  - now rewrite andb_true_r.
  - rewrite IH, and2_true. now rewrite andb_assoc.
Qed.

Lemma and_true (cs : list Sql.tri) :
  Sql.is_true (Sql.and_ cs) = forallb Sql.is_true cs.
Proof.
  destruct cs as [|c cs]; [reflexivity|]. simpl. apply fold_and2_true.
Qed.


Lemma where_filter {R} (conditions : list (R -> Sql.tri)) (rows : list R) :
  Sql.where_ conditions rows = filter (holds_all conditions) rows.
Proof.
  destruct conditions as [|c cs].
  - simpl. induction rows as [|r rows IH]; simpl; congruence.
  - unfold Sql.where_. apply filter_ext. intro r.
    rewrite and_true. unfold holds_all.
    induction (c :: cs) as [|d ds IH]; simpl; [reflexivity|now rewrite IH].
Qed.

(** Ceiling division by a positive number. *)
Lemma ceil_div (t p : Z) :
  0 <= t -> 1 <= p ->
  let k := (t + p - 1) / p in
  (k - 1) * p < t <= k * p /\ (t = 0 -> k = 0).
Proof.
  intros Ht Hp k.
  pose proof (Z.div_mod (t + p - 1) p ltac:(lia)) as E.
  pose proof (Z.mod_pos_bound (t + p - 1) p ltac:(lia)) as B.
  fold k in E. split; [nia|].
  intro; subst t. subst k. apply Z.div_small. lia.
Qed.

(** [search_cases] returns a response whenever [per_page] is not zero. *)
Lemma search_cases_returns db query court year date_from date_to page per_page :
  per_page <> 0 ->
  Search.search_cases db query court year date_from date_to page per_page
  = Ok {| SearchResponse.total :=
            Z.of_nat (length (Sql.where_ (Search.conditions query court year date_from date_to) db));
          SearchResponse.page := page;
          SearchResponse.per_page := per_page;
          SearchResponse.total_pages :=
            (Z.of_nat (length (Sql.where_ (Search.conditions query court year date_from date_to) db))
             + per_page - 1) / per_page;
          SearchResponse.results :=
            map Search.format_result
              (Sql.limit per_page
                 (Sql.offset ((page - 1) * per_page)
                    (Sql.where_ (Search.conditions query court year date_from date_to) db))) |}.
Proof.
  intro H. unfold Search.search_cases, floordiv.
  destruct (Z.eqb_spec per_page 0); [contradiction|reflexivity].
Qed.

(** The search and export services build the same list of conditions. *)
Lemma export_conditions_eq query court year date_from date_to :
  ExportService.conditions query court year date_from date_to
  = Search.conditions query court year date_from date_to.
Proof. reflexivity. Qed.

(** A non-zero year filter is an exact match on the [year] column. *)
Lemma year_filter_nonzero query court y date_from date_to (r : Case.t) :
  y <> 0 ->
  holds_all (Search.conditions query court (Some y) date_from date_to) r = true ->
  Case.year r = Some y.
Proof.
  intros Hy H. unfold holds_all, Search.conditions in H.
  rewrite !forallb_app in H.
  apply andb_prop in H as [_ H]. apply andb_prop in H as [_ H].
  apply andb_prop in H as [H _].
  unfold truthy_int in H. destruct (Z.eqb_spec y 0); [contradiction|].
  simpl in H. rewrite andb_true_r in H.
  destruct (Case.year r) as [z|]; simpl in H; [|discriminate].
  destruct (Z.eqb_spec z y); [congruence|discriminate].
Qed.

(** C1 (the code at every request): the endpoint [search] of main.py
    passes the keyword [highlight] to [search_cases], which has no such
    parameter, so that the call raises [TypeError] whatever the request
    is, the valid ones included. *)
Theorem search_endpoint_raises_type_error
        (st : Main.Settings) (db : list Case.t) (q : str)
        (court : option str) (year : option Z) (date_from date_to : option str)
        (page : Z) (per_page : option Z) (highlight : bool) :
  Main.search st db q court year date_from date_to page per_page highlight
  = Raise (TypeError "highlight").
Proof. reflexivity. Qed.

(** C2 (the code at the scenario of the specification): for the record
    [case_001] with headnote "Brief summary of the case." and the query
    "case", [search_cases] emits the headnote as it is, while the
    highlighter would have wrapped the token in a mark element. *)
Theorem search_cases_does_not_highlight :
  exists resp,
    Search.search_cases [Samples.make_case_row] (lit "case") None None None None 1 20
    = Ok resp
    /\ map CaseResponse.snippet (SearchResponse.results resp)
       = [Some (lit "Brief summary of the case.")]
    /\ Highlight.highlight_snippet (Some (lit "Brief summary of the case."))
         (lit "case") Highlight.default_max_length Highlight.default_tag
       = Some (lit "Brief summary of the <mark>case</mark>.")
    /\ containsb (lit "<mark>case</mark>") (lit "Brief summary of the case.") = false.
Proof.
  eexists. split; [rewrite search_cases_returns by discriminate; reflexivity|].
  repeat split; vm_compute; reflexivity.
Qed.

(** C3 (the code at a short text): for a record with no headnote and
    the 29-character text "Full judgment text goes here.", the snippet
    is the text followed by "...". *)
Theorem snippet_of_short_text_has_ellipsis :
  Case.headnote Samples.row_without_headnote = None
  /\ Case.text Samples.row_without_headnote = Some (lit "Full judgment text goes here.")
  /\ Search.snippet_of Samples.row_without_headnote
     = Some (lit "Full judgment text goes here....").
Proof. repeat split; vm_compute; reflexivity. Qed.

(** C4 (the code at year 0): with the year filter 0 supplied, the search
    and export statements select a record whose year is 2024. *)
Theorem year_zero_filter_is_dropped :
  Case.year Samples.make_case_row = Some 2024
  /\ Sql.where_ (Search.conditions (lit "smith") None (Some 0) None None)
       [Samples.make_case_row] = [Samples.make_case_row]
  /\ ExportService._fetch_export_rows [Samples.make_case_row] (lit "smith")
       None (Some 0) None None 1000 = [Samples.make_case_row].
Proof. repeat split; vm_compute; reflexivity. Qed.

(** C7: for [page >= 1] and [per_page >= 1], [search_cases] returns a
    response whose [total] is the number of all records on which the
    conditions hold, whatever the page window, and whose [total_pages] is
    the ceiling of [total / per_page], which is 0 when [total] is 0. *)
Theorem search_total_and_total_pages db query court year date_from date_to page per_page :
  1 <= page -> 1 <= per_page ->
  exists resp,
    Search.search_cases db query court year date_from date_to page per_page = Ok resp
    /\ SearchResponse.total resp
       = Z.of_nat (length (filter (holds_all (Search.conditions query court year date_from date_to)) db))
    /\ (forall page' per_page', 1 <= page' -> 1 <= per_page' ->
        exists resp',
          Search.search_cases db query court year date_from date_to page' per_page' = Ok resp'
          /\ SearchResponse.total resp' = SearchResponse.total resp)
    /\ (SearchResponse.total_pages resp - 1) * per_page < SearchResponse.total resp
       <= SearchResponse.total_pages resp * per_page
    /\ (SearchResponse.total resp = 0 -> SearchResponse.total_pages resp = 0).
Proof.
  intros Hpage Hper. eexists. split.
  { apply search_cases_returns. lia. }
  cbn [SearchResponse.total SearchResponse.total_pages].
  rewrite where_filter. split; [reflexivity|]. split.
  - intros page' per_page' _ Hper'. eexists. split.
    + apply search_cases_returns. lia.
    + cbn [SearchResponse.total]. now rewrite where_filter.
  - apply ceil_div; lia.
Qed.

Lemma search_total_and_total_pages_witness :
  exists resp,
    Search.search_cases [Samples.make_case_row; Samples.row_without_headnote;
                         Samples.row_without_court] (lit "smith") None None None None 1 1
    = Ok resp
    /\ SearchResponse.total resp = 2
    /\ SearchResponse.total_pages resp = 2.
Proof.
  destruct (search_total_and_total_pages
              [Samples.make_case_row; Samples.row_without_headnote;
               Samples.row_without_court] (lit "smith") None None None None 1 1
              ltac:(lia) ltac:(lia)) as (resp & E & Ht & _ & Hc & _).
  exists resp. split; [exact E|].
  assert (T : SearchResponse.total resp = 2) by (rewrite Ht; vm_compute; reflexivity).
  split; [exact T|]. rewrite T in Hc. lia.
Defined.

End SearchProps.

(* ===================================================================== *)
(** * Properties of the snippet highlighter *)
(* ===================================================================== *)

Module HighlightProps.
Import Py Highlight Spec MoreSpec.

(** ** Slices *)

Lemma firstn_min_length {A} (k : nat) (l : list A) :
  firstn (Nat.min k (length l)) l = firstn k l.
Proof.
  destruct (Nat.le_gt_cases k (length l)) as [H|H].
  - now rewrite Nat.min_l.
  - rewrite Nat.min_r by lia. rewrite !firstn_all2 by lia. reflexivity.
Qed.

(** [s[:h]] is a prefix of [s]. *)
Lemma slice_to_prefix (s : str) (h : Z) :
  exists k, slice s None (Some h) = firstn k s.
Proof. unfold slice. simpl. eexists. reflexivity. Qed.

(** For a bound that is not negative, [s[:h]] is the first [h]
    characters of [s]. *)
Lemma slice_to_firstn (s : str) (h : Z) :
  0 <= h -> slice s None (Some h) = firstn (Z.to_nat h) s.
Proof.
  intro H. unfold slice, adjust_index, len. simpl skipn.
  destruct (Z.ltb_spec h 0); [lia|].
  rewrite Z.sub_0_r, Z2Nat.inj_min, Nat2Z.id. apply firstn_min_length.
Qed.

(** For a start and a width that are not negative, [s[a:a+m]] is the
    [m] characters that follow the first [a]. *)
Lemma slice_window (s : str) (a m : Z) :
  0 <= a -> 0 <= m ->
  slice s (Some a) (Some (a + m)) = firstn (Z.to_nat m) (skipn (Z.to_nat a) s).
Proof.
  intros Ha Hm. unfold slice, adjust_index, len.
  destruct (Z.ltb_spec a 0); [lia|]. destruct (Z.ltb_spec (a + m) 0); [lia|].
  destruct (Z.le_gt_cases a (Z.of_nat (length s))) as [L|G].
  - rewrite (Z.min_l a) by lia.
    rewrite <- (firstn_min_length (Z.to_nat m)). f_equal.
    rewrite length_skipn. lia.
  - rewrite (Z.min_r a) by lia. rewrite Nat2Z.id, skipn_all.
    rewrite (skipn_all2 (n := Z.to_nat a)) by lia. now rewrite !firstn_nil.
Qed.

(** ** Substrings *)

Lemma starts_with_spec (p s : str) :
  starts_with p s = true <-> exists post, s = p ++ post.
Proof.
  revert s. induction p as [|a p IH]; intro s; simpl.
  - split; [eauto|reflexivity].
  - destruct s as [|b s].
    + split; [discriminate|]. intros [post E]. discriminate.
    + rewrite andb_true_iff, Ascii.eqb_eq, IH. split.
      * intros [-> [post ->]]. eauto.
      * intros [post E]. injection E as -> ->. eauto.
Qed.

Lemma containsb_spec (needle hay : str) :
  containsb needle hay = true <-> contains needle hay.
Proof.
  unfold contains. induction hay as [|c hay IH]; simpl.
  - rewrite orb_false_r, starts_with_spec. split.
    + intros [post E]. exists [], post. exact E.
    + intros (pre & post & E). destruct pre; [eauto|discriminate].
  - rewrite orb_true_iff, starts_with_spec, IH. split.
    + intros [[post E]|(pre & post & E)].
      * exists [], post. exact E.
      * exists (c :: pre), post. simpl. now rewrite E.
    + intros (pre & post & E). destruct pre as [|d pre].
      * left. eauto.
      * right. injection E as _ E. eauto.
Qed.

(** An occurrence of a text that ends with [x] in [p ++ suffix] lies
    within [p] when [x] does not occur in [suffix]. *)
Lemma contains_app_no_last (body p suffix : str) (x : ascii) :
  ~ In x suffix ->
  contains (body ++ [x]) (p ++ suffix) -> contains (body ++ [x]) p.
Proof.
  intros Hx (pre & post & E).
  rewrite <- app_assoc in E. simpl in E. rewrite app_assoc in E.
  symmetry in E. apply app_eq_app in E as [l [[E1 E2]|[E1 E2]]].
  - exfalso. apply Hx. rewrite E2. apply in_or_app. right. now left.
  - destruct l as [|y l].
    + exfalso. apply Hx. simpl in E2. rewrite <- E2. now left.
    + injection E2 as <- E2. exists pre, l.
      rewrite E1, <- !app_assoc. reflexivity.
Qed.

Lemma contains_firstn (needle s : str) (k : nat) :
  contains needle (firstn k s) -> contains needle s.
Proof.
  intros (pre & post & E). exists pre, (post ++ skipn k s).
  rewrite <- (firstn_skipn k s) at 1. rewrite E, <- !app_assoc. reflexivity.
Qed.

(** ** Query tokens *)


Lemma split_go_tokens (cur s : str) :
  nospace cur = true ->
  Forall (fun t => t <> [] /\ nospace t = true) (split_go cur s).
Proof.
  revert cur. induction s as [|c s IH]; intros cur Hc; simpl.
  - destruct cur; constructor; [|constructor]. split; [discriminate|exact Hc].
  - destruct (isspace c) eqn:Ec.
    + destruct cur.
      * now apply IH.
      * constructor; [split; [discriminate|exact Hc]|now apply IH].
    + apply IH. unfold nospace. rewrite forallb_app. simpl.
      rewrite Ec. simpl. now rewrite andb_true_r.
Qed.

Lemma lstrip_nospace (t : str) : nospace t = true -> lstrip t = t.
Proof.
  destruct t as [|c t]; simpl; [reflexivity|]. intro H.
  apply andb_prop in H as [H _]. now destruct (isspace c).
Qed.

Lemma nospace_rev (t : str) : nospace t = true -> nospace (rev t) = true.
Proof.
  unfold nospace. rewrite !forallb_forall. intros H c Hc.
  apply H. now apply in_rev.
Qed.

Lemma strip_nospace (t : str) : nospace t = true -> strip t = t.
Proof.
  intro H. unfold strip. rewrite (lstrip_nospace t H).
  rewrite (lstrip_nospace _ (nospace_rev t H)). apply rev_involutive.
Qed.

(** The tokens of a query are the pieces of [query.split()]: stripping
    them changes nothing and none of them is empty. *)
Lemma query_tokens_split (query : str) : query_tokens query = split query.
Proof.
  unfold query_tokens, split.
  pose proof (split_go_tokens [] query eq_refl) as F.
  induction F as [|t ts [Hne Hns] _ IH]; [reflexivity|].
  simpl. rewrite (strip_nospace t Hns).
  destruct t; [contradiction|]. simpl. rewrite (strip_nospace _ Hns).
  now rewrite IH.
Qed.

Lemma split_go_spaces (s : str) : forallb isspace s = true -> split_go [] s = [].
Proof.
  induction s as [|c s IH]; simpl; [reflexivity|]. intro H.
  apply andb_prop in H as [Hc Hs]. rewrite Hc. now apply IH.
Qed.

(** ** The first match *)


Lemma match_here_spec (tok s : str) :
  match_here tok s = true
  <-> (length tok <= length s)%nat
      /\ map uni_lower (firstn (length tok) s) = map uni_lower tok.
Proof.
  revert s. induction tok as [|a tok IH]; intro s; simpl.
  - split; [intros _; split; [lia|reflexivity]|reflexivity].
  - destruct s as [|b s]; simpl.
    + split; [discriminate|]. intros [H _]. lia.
    + rewrite andb_true_iff, Ascii.eqb_eq, IH. split.
      * intros [E [L M]]. split; [lia|]. now rewrite E, M.
      * intros [L M]. injection M as E M. repeat split; auto; lia.
Qed.

Lemma alt_here_spec (tokens : list str) (text : str) (i : nat) :
  (i <= length text)%nat ->
  alt_here tokens (skipn i text) = true <-> some_token_at tokens text i.
Proof.
  intro Hi. unfold alt_here, some_token_at, occurs_at.
  rewrite existsb_exists. split; intros (tok & Hin & H); exists tok; (split; [exact Hin|]).
  - apply match_here_spec in H as [L M]. rewrite length_skipn in L. split; [lia|exact M].
  - apply match_here_spec. rewrite length_skipn. destruct H as [L M]. split; [lia|exact M].
Qed.

Lemma some_token_at_bound (tokens : list str) (text : str) (i : nat) :
  some_token_at tokens text i -> (i <= length text)%nat.
Proof. intros (tok & _ & L & _). lia. Qed.

Lemma search_from_some (tokens : list str) (s : str) (pos p : nat) :
  search_from tokens s pos = Some p ->
  exists k, p = (pos + k)%nat /\ (k <= length s)%nat
            /\ alt_here tokens (skipn k s) = true
            /\ forall j, (j < k)%nat -> alt_here tokens (skipn j s) = false.
Proof.
  revert pos. induction s as [|c s IH]; intro pos; simpl.
  - destruct (alt_here tokens []) eqn:E; [|discriminate].
    intro H. injection H as <-. exists 0%nat. simpl. repeat split; auto; lia.
  - destruct (alt_here tokens (c :: s)) eqn:E.
    + intro H. injection H as <-. exists 0%nat. simpl. repeat split; auto; lia.
    + intro H. apply IH in H as (k & -> & L & M & N).
      exists (S k). simpl. repeat split; auto; try lia.
      intros [|j] Hj; simpl; [exact E|]. apply N. lia.
Qed.

Lemma search_from_none (tokens : list str) (s : str) (pos : nat) :
  search_from tokens s pos = None ->
  forall k, (k <= length s)%nat -> alt_here tokens (skipn k s) = false.
Proof.
  revert pos. induction s as [|c s IH]; intro pos; simpl.
  - destruct (alt_here tokens []) eqn:E; [discriminate|].
    intros _ [|k] Hk; simpl; [exact E|lia].
  - destruct (alt_here tokens (c :: s)) eqn:E; [discriminate|].
    intros H [|k] Hk; simpl; [exact E|]. apply (IH _ H). lia.
Qed.

(** [re.search] finds the leftmost position at which a token occurs, and
    finds nothing only when no token occurs anywhere. *)
Lemma re_search_some (tokens : list str) (text : str) (m : nat) :
  re_search tokens text = Some m -> leftmost_match tokens text m.
Proof.
  intro H. apply search_from_some in H as (k & -> & L & M & N). simpl.
  split.
  - now apply alt_here_spec.
  - intros j Hj C. apply alt_here_spec in C; [|lia].
    rewrite (N j Hj) in C. discriminate.
Qed.

Lemma re_search_none (tokens : list str) (text : str) :
  re_search tokens text = None -> no_match tokens text.
Proof.
  intros H i C. pose proof (some_token_at_bound _ _ _ C) as L.
  apply alt_here_spec in C; [|exact L].
  rewrite (search_from_none _ _ _ H i L) in C. discriminate.
Qed.

(** ** The snippet window *)

Lemma split_nonempty_query (query : str) : split query <> [] -> truthy_str query = true.
Proof. destruct query; [intro H; now elim H|reflexivity]. Qed.

(** Case folding identifies exactly the characters that are the same up
    to case. *)
Lemma same_letter_spec (a b : ascii) :
  same_letter a b = Ascii.eqb (uni_lower a) (uni_lower b).
Proof.
  rewrite <- (ascii_nat_embedding a), <- (ascii_nat_embedding b).
  pose proof (nat_ascii_bounded a) as Ha. pose proof (nat_ascii_bounded b) as Hb.
  assert (T : forallb (fun i =>
                forallb (fun j =>
                  Bool.eqb (same_letter (ascii_of_nat i) (ascii_of_nat j))
                           (Ascii.eqb (uni_lower (ascii_of_nat i))
                                      (uni_lower (ascii_of_nat j))))
                  (seq 0 256)) (seq 0 256) = true) by (vm_compute; reflexivity).
  assert (Ia : In (nat_of_ascii a) (seq 0 256)) by (apply in_seq; lia).
  assert (Ib : In (nat_of_ascii b) (seq 0 256)) by (apply in_seq; lia).
  rewrite forallb_forall in T. specialize (T _ Ia).
  rewrite forallb_forall in T. specialize (T _ Ib).
  now apply eqb_prop in T.
Qed.

Lemma same_text_lower (a b : str) :
  same_text a b <-> map uni_lower a = map uni_lower b.
Proof.
  split.
  - induction 1 as [|x y a b H _ IH]; [reflexivity|]. simpl.
    rewrite same_letter_spec in H. apply Ascii.eqb_eq in H. now rewrite H, IH.
  - revert b. induction a as [|x a IH]; intros [|y b]; simpl; try discriminate.
    + constructor.
    + intros [= H1 H2]. constructor; [|now apply IH].
      rewrite same_letter_spec, H1. apply Ascii.eqb_refl.
Qed.

Lemma token_at_occurs (tok text : str) (i : nat) :
  token_at tok text i <-> occurs_at tok text i.
Proof.
  unfold token_at, occurs_at. rewrite same_text_lower.
  split; intros [L M]; (split; [exact L|now symmetry]).
Qed.

Lemma first_match_leftmost (tokens : list str) (text : str) (m : nat) :
  first_match tokens text m <-> leftmost_match tokens text m.
Proof.
  unfold first_match, leftmost_match, some_token_at. split.
  - intros [(tok & Hin & H) Hl]. split.
    + exists tok. split; [exact Hin|now apply token_at_occurs].
    + intros j Hj (tk & Hk & O). apply (Hl j tk Hj Hk). now apply token_at_occurs.
  - intros [(tok & Hin & H) Hl]. split.
    + exists tok. split; [exact Hin|now apply token_at_occurs].
    + intros j tk Hj Hk O. apply (Hl j Hj). exists tk. split; [exact Hk|].
      now apply token_at_occurs.
Qed.

Lemma nothing_matches_no_match (tokens : list str) (text : str) :
  nothing_matches tokens text <-> no_match tokens text.
Proof.
  unfold nothing_matches, no_match, some_token_at. split.
  - intros H i (tok & Hin & O). apply (H i tok Hin). now apply token_at_occurs.
  - intros H i tok Hin O. apply (H i). exists tok. split; [exact Hin|].
    now apply token_at_occurs.
Qed.

(** The search finds the position of the leftmost match, and no other. *)
Lemma first_match_search (tokens : list str) (text : str) (m : nat) :
  first_match tokens text m -> re_search tokens text = Some m.
Proof.
  intro H. apply first_match_leftmost in H. destruct H as [Hm Hl].
  destruct (re_search tokens text) as [k|] eqn:E.
  - apply re_search_some in E as [Hk Hkl]. f_equal.
    destruct (Nat.lt_trichotomy k m) as [L|[L|L]]; [|exact L|].
    + exfalso. exact (Hl k L Hk).
    + exfalso. exact (Hkl m L Hm).
  - exfalso. exact (re_search_none _ _ E m Hm).
Qed.

(** C5: for a non-empty text and a query with at least one token (and
    a tag without a backslash), the snippet is cut from a window that
    starts at [max(0, matchStart - max_length // 3)], where [matchStart]
    is the position of the leftmost case-insensitive match of any token,
    or at 0 when no token matches; the window is [max_length] wide; the
    text "..." is put in front exactly when the start is positive and
    behind exactly when the end of the window is before the end of the
    text.  The tokens are then wrapped within that snippet. *)
Theorem highlight_window (text query : str) (max_length : Z) (tag : str) :
  text <> [] -> split query <> [] -> plain_tag tag = true ->
  exists start : Z,
    ((exists m, first_match (split query) text m
                /\ start = Z.max 0 (Z.of_nat m - max_length / 3))
     \/ (nothing_matches (split query) text /\ start = 0))
    /\ highlight_snippet (Some text) query max_length tag
       = Some (wrap_tokens tag (split query)
                 ((if 0 <? start then lit "..." else [])
                  ++ slice text (Some start) (Some (start + max_length))
                  ++ (if start + max_length <? len text then lit "..." else [])))
    /\ (0 <= max_length ->
        slice text (Some start) (Some (start + max_length))
        = firstn (Z.to_nat max_length) (skipn (Z.to_nat start) text)).
Proof.
  intros Ht Hq _. unfold highlight_snippet.
  rewrite (split_nonempty_query query Hq), query_tokens_split.
  destruct text as [|c text]; [contradiction|]. cbn [truthy_opt_str truthy_str negb orb].
  destruct (split query) as [|tok toks] eqn:Es; [contradiction|].
  assert (shape : forall (b1 b2 : bool) (sn : str),
             (if b2 then (if b1 then ellipsis ++ sn else sn) ++ ellipsis
              else (if b1 then ellipsis ++ sn else sn))
             = (if b1 then lit "..." else []) ++ sn ++ (if b2 then lit "..." else [])).
  { intros [|] [|] sn; unfold ellipsis; simpl; rewrite <- ?app_assoc, ?app_nil_r;
      reflexivity. }
  destruct (re_search (tok :: toks) (c :: text)) as [m|] eqn:Em.
  - exists (Z.max 0 (Z.of_nat m - max_length / 3)). split; [|split].
    + left. exists m. split; [|reflexivity].
      apply first_match_leftmost. now apply re_search_some.
    + rewrite Z.gtb_ltb, shape. reflexivity.
    + intro H. apply slice_window; lia.
  - exists 0. split; [|split].
    + right. split; [|reflexivity].
      apply nothing_matches_no_match. now apply re_search_none.
    + rewrite Z.gtb_ltb, shape. reflexivity.
    + intro H. apply slice_window; lia.
Qed.

(** The window of a match deep in a text of 90 characters, with a token
    written in another case than the text: the match is at 41, the
    window starts at 31, and both ellipses are there. *)
Lemma highlight_window_witness :
  exists start : Z,
    start = 31
    /\ highlight_snippet
         (Some (repeat "A"%char 40 ++ lit " Contract " ++ repeat "B"%char 40))
         (lit "cONTRACT") 30 (lit "mark")
       = Some (lit "...AAAAAAAAA <mark>Contract</mark> BBBBBBBBBBB...").
Proof.
  destruct (highlight_window
              (repeat "A"%char 40 ++ lit " Contract " ++ repeat "B"%char 40)
              (lit "cONTRACT") 30 (lit "mark")
              ltac:(discriminate) ltac:(vm_compute; discriminate) eq_refl)
    as (start & W & E & _).
  assert (S : re_search (split (lit "cONTRACT"))
                (repeat "A"%char 40 ++ lit " Contract " ++ repeat "B"%char 40)
              = Some 41%nat) by (vm_compute; reflexivity).
  assert (Hs : start = 31).
  { destruct W as [(m & Hm & ->)|(Hn & _)].
    - apply first_match_search in Hm. rewrite S in Hm. injection Hm as <-.
      vm_compute. reflexivity.
    - exfalso. apply re_search_some in S as [Hm _].
      apply nothing_matches_no_match in Hn. exact (Hn _ Hm). }
  exists start. split; [exact Hs|].
  etransitivity; [exact E|]. rewrite Hs. vm_compute. reflexivity.
Defined.

(** ** No query terms *)

(** C6, as the code has it: absent text is returned as [None] whatever
    the query; for a non-empty text and a query that is empty or all
    whitespace the result is [text[:max_length] + "..."] when the text is
    longer than [max_length] and the text itself otherwise, so that it
    holds an opening [<tag>] only where the text already held one. *)
Theorem highlight_without_terms :
  (forall query max_length tag, highlight_snippet None query max_length tag = None)
  /\ (forall text query max_length tag,
        text <> [] -> forallb isspace query = true ->
        highlight_snippet (Some text) query max_length tag
        = Some (if len text >? max_length
                then slice text None (Some max_length) ++ ellipsis
                else text)
        /\ (0 <= max_length ->
            slice text None (Some max_length) = firstn (Z.to_nat max_length) text)
        /\ (forall r,
              highlight_snippet (Some text) query max_length tag = Some r ->
              contains (lit "<" ++ tag ++ lit ">") r ->
              contains (lit "<" ++ tag ++ lit ">") text)).
Proof.
  split.
  - intros query max_length tag. unfold highlight_snippet. simpl.
    reflexivity.
  - intros text query max_length tag Ht Hq.
    assert (E : highlight_snippet (Some text) query max_length tag
                = Some (if len text >? max_length
                        then slice text None (Some max_length) ++ ellipsis
                        else text)).
    { unfold highlight_snippet. destruct text as [|c text]; [contradiction|].
      cbn [truthy_opt_str truthy_str negb orb andb].
      destruct query as [|q query].
      - simpl. now destruct (len (c :: text) >? max_length).
      - cbn [truthy_str negb]. unfold query_tokens, split.
        rewrite (split_go_spaces _ Hq). reflexivity. }
    split; [exact E|]. split; [apply slice_to_firstn|].
    intros r Hr. rewrite E in Hr. injection Hr as <-.
    destruct (len text >? max_length); [|trivial].
    intro C. destruct (slice_to_prefix text max_length) as [k Ek].
    rewrite Ek in C. apply (contains_firstn _ _ k).
    change (lit "<" ++ tag ++ lit ">") with (("<"%char :: tag) ++ [">"%char]) in *.
    revert C. apply contains_app_no_last.
    unfold ellipsis. simpl. intros [H|[H|[H|[]]]]; discriminate.
Qed.

Lemma highlight_without_terms_witness :
  highlight_snippet (Some (lit "Some text content.")) [] 10 default_tag
  = Some (lit "Some text ...").
Proof.
  destruct (proj2 highlight_without_terms (lit "Some text content.") [] 10
              default_tag ltac:(discriminate) eq_refl) as (E & _).
  etransitivity; [exact E|]. vm_compute. reflexivity.
Defined.

(** C6 as it is stated does not hold: a text that already holds
    [<mark>] comes back with it under an empty query. *)
Lemma highlight_empty_query_keeps_tag_text :
  ~ (forall text query max_length tag r,
        text <> [] -> forallb isspace query = true ->
        highlight_snippet (Some text) query max_length tag = Some r ->
        ~ contains (lit "<" ++ tag ++ lit ">") r).
Proof.
  intro H.
  apply (H (lit "<mark>x</mark>") [] 300 (lit "mark") (lit "<mark>x</mark>")).
  - discriminate.
  - reflexivity.
  - vm_compute. reflexivity.
  - apply containsb_spec. vm_compute. reflexivity.
Qed.

End HighlightProps.

(* ===================================================================== *)
(** * Properties of the export service *)
(* ===================================================================== *)

Module ExportProps.
Import Py ExportService Spec.

Lemma limit_length {R} (n : Z) (rows : list R) :
  0 <= n -> Z.of_nat (length (Sql.limit n rows)) <= n.
Proof.
  intro H. unfold Sql.limit. destruct (Z.ltb_spec n 0); [lia|].
  rewrite length_firstn. lia.
Qed.

Lemma limit_firstn {R} (n : Z) (rows : list R) :
  0 <= n -> Sql.limit n rows = firstn (Z.to_nat n) rows.
Proof. intro H. unfold Sql.limit. destruct (Z.ltb_spec n 0); [lia|reflexivity]. Qed.

(** The rows fetched for an export: the first [min(limit, 10000)] of the
    records on which the conditions hold. *)
Lemma fetch_export_rows_spec db query court year date_from date_to limit :
  0 <= limit ->
  _fetch_export_rows db query court year date_from date_to limit
  = firstn (Z.to_nat (Z.min limit MAX_EXPORT_ROWS))
      (filter (holds_all (conditions query court year date_from date_to)) db).
Proof.
  intro H. unfold _fetch_export_rows.
  rewrite limit_firstn by (unfold MAX_EXPORT_ROWS; lia).
  now rewrite SearchProps.where_filter.
Qed.

(** The buffer after the loop of [export_cases_csv]: one written row per
    case, after what was there. *)
Lemma csv_loop (cases : list Case.t) (buf : str) :
  fold_left (fun b c => b ++ writerow (csv_record c)) cases buf
  = buf ++ concat (map writerow (map csv_record cases)).
Proof.
  revert buf. induction cases as [|c cases IH]; intro buf; simpl.
  - now rewrite app_nil_r.
  - rewrite IH, <- app_assoc. reflexivity.
Qed.

Lemma export_cases_csv_spec db query court year date_from date_to limit :
  export_cases_csv db query court year date_from date_to limit
  = let cases := _fetch_export_rows db query court year date_from date_to limit in
    (concat (map writerow (csv_header :: map csv_record cases)),
     Z.of_nat (length cases)).
Proof. unfold export_cases_csv. cbv zeta. now rewrite csv_loop. Qed.

Lemma slice_500_length (s : str) : (length (slice s None (Some 500%Z)) <= 500)%nat.
Proof.
  rewrite HighlightProps.slice_to_firstn by lia. rewrite length_firstn. lia.
Qed.

(** ** The CSV text read back *)

Lemma needs_quote_false (c : ascii) :
  needs_quote c = false ->
  is_char c comma = false /\ is_char c dquote = false
  /\ is_char c cr = false /\ is_char c lf = false.
Proof.
  unfold needs_quote, is_char. intro H.
  repeat (apply orb_false_elim in H as [H ?]). auto.
Qed.

Lemma read_infield (record : list str) (rest f acc : str) :
  existsb needs_quote f = false ->
  csv_read InField acc record (f ++ comma :: rest)
  = csv_read StartField [] (record ++ [acc ++ f]) rest
  /\ csv_read InField acc record (f ++ cr :: lf :: rest)
     = (record ++ [acc ++ f]) :: csv_read StartRecord [] [] rest.
Proof.
  revert acc. induction f as [|c f IH]; intros acc H.
  - rewrite app_nil_r. split; reflexivity.
  - simpl in H. apply orb_false_elim in H as [Hc Hf].
    destruct (needs_quote_false c Hc) as (C1 & C2 & C3 & C4).
    destruct (IH (acc ++ [c]) Hf) as [I1 I2].
    rewrite <- app_assoc in I1, I2. simpl in I1, I2.
    simpl. rewrite C1, C3, C4. split; assumption.
Qed.

Lemma read_inquoted (record : list str) (rest f acc : str) :
  csv_read InQuoted acc record (double_quotes f ++ dquote :: rest)
  = csv_read QuoteSeen (acc ++ f) record rest.
Proof.
  revert acc. induction f as [|c f IH]; intro acc.
  - rewrite app_nil_r. reflexivity.
  - unfold double_quotes. simpl flat_map. fold (double_quotes f).
    destruct (Ascii.eqb c dquote) eqn:E.
    + apply Ascii.eqb_eq in E. subst c. simpl.
      rewrite IH, <- app_assoc. reflexivity.
    + simpl. unfold is_char at 1. rewrite E.
      rewrite IH, <- app_assoc. reflexivity.
Qed.

Lemma read_field_comma (st : csv_state) (record : list str) (f rest : str) :
  at_start st ->
  csv_read st [] record (csv_field f ++ comma :: rest)
  = csv_read StartField [] (record ++ [f]) rest.
Proof.
  intro Hst. unfold csv_field. destruct (existsb needs_quote f) eqn:Q.
  - rewrite <- app_comm_cons, <- app_assoc. simpl app.
    transitivity (csv_read InQuoted [] record (double_quotes f ++ dquote :: comma :: rest)).
    + destruct Hst; subst st; reflexivity.
    + now rewrite read_inquoted.
  - destruct f as [|c f].
    + destruct Hst; subst st; reflexivity.
    + simpl in Q. apply orb_false_elim in Q as [Hc Hf].
      destruct (needs_quote_false c Hc) as (C1 & C2 & C3 & C4).
      destruct (read_infield record rest f [c] Hf) as [I1 _].
      destruct Hst; subst st; simpl; rewrite C1, C2, C3, C4; assumption.
Qed.

Lemma read_field_end (st : csv_state) (record : list str) (f rest : str) :
  st = StartField \/ (st = StartRecord /\ f <> []) ->
  csv_read st [] record (csv_field f ++ cr :: lf :: rest)
  = (record ++ [f]) :: csv_read StartRecord [] [] rest.
Proof.
  intro Hst. unfold csv_field. destruct (existsb needs_quote f) eqn:Q.
  - rewrite <- app_comm_cons, <- app_assoc. simpl app.
    transitivity (csv_read InQuoted [] record (double_quotes f ++ dquote :: cr :: lf :: rest)).
    + destruct Hst as [->|[-> _]]; reflexivity.
    + now rewrite read_inquoted.
  - destruct f as [|c f].
    + destruct Hst as [->|[_ N]]; [reflexivity|contradiction].
    + simpl in Q. apply orb_false_elim in Q as [Hc Hf].
      destruct (needs_quote_false c Hc) as (C1 & C2 & C3 & C4).
      destruct (read_infield record rest f [c] Hf) as [_ I2].
      destruct Hst as [->|[-> _]]; simpl; rewrite C1, C2, C3, C4; assumption.
Qed.

Lemma read_joined (record fields : list str) (rest : str) :
  fields <> [] ->
  csv_read StartField [] record (join [comma] (map csv_field fields) ++ cr :: lf :: rest)
  = (record ++ fields) :: csv_read StartRecord [] [] rest.
Proof.
  intro Hne. revert record. induction fields as [|f fields IH]; [contradiction|].
  intro record. destruct fields as [|g fields].
  - simpl join. apply read_field_end. now left.
  - change (join [comma] (map csv_field (f :: g :: fields)))
      with (csv_field f ++ [comma] ++ join [comma] (map csv_field (g :: fields))).
    rewrite <- !app_assoc.
    change ([comma] ++ ?x) with (comma :: x).
    rewrite read_field_comma by (right; reflexivity).
    rewrite IH by discriminate.
    rewrite <- app_assoc. reflexivity.
Qed.

(** The reader after one written row: the row, whatever its fields. *)
Lemma read_row (fields : list str) (rest : str) :
  csv_read StartRecord [] [] (writerow fields ++ rest)
  = fields :: csv_read StartRecord [] [] rest.
Proof.
  destruct fields as [|f fields]; [reflexivity|].
  destruct fields as [|g fields].
  - destruct f as [|c f]; [reflexivity|].
    unfold writerow, crlf. rewrite <- app_assoc. simpl join.
    apply (read_field_end StartRecord [] (c :: f)). right. split; [reflexivity|discriminate].
  - assert (W : writerow (f :: g :: fields)
                = csv_field f ++ comma :: join [comma] (map csv_field (g :: fields)) ++ crlf).
    { unfold writerow. destruct f; simpl; now rewrite <- ?app_assoc. }
    rewrite W, <- app_assoc. unfold crlf.
    change ((comma :: ?x) ++ rest) with (comma :: (x ++ rest)).
    rewrite read_field_comma by (left; reflexivity).
    rewrite <- app_assoc. simpl ([cr; lf] ++ rest).
    now rewrite read_joined by discriminate.
Qed.

(** Reading the text written for rows gives the rows back. *)
Lemma csv_records_written (rows : list (list str)) :
  csv_records (concat (map writerow rows)) = rows.
Proof.
  unfold csv_records. induction rows as [|r rows IH]; [reflexivity|].
  simpl. now rewrite read_row, IH.
Qed.

(** ** JSON strings read back *)

Lemma json_read_escape (c : ascii) (s : str) :
  json_read_string (json_escape c ++ s)
  = match json_read_string s with
    | Some (t, rest) => Some (c :: t, rest)
    | None => None
    end.
Proof.
  destruct c as [[|] [|] [|] [|] [|] [|] [|] [|]]; reflexivity.
Qed.

Lemma json_read_body (s rest : str) :
  json_read_string (flat_map json_escape s ++ dquote :: rest) = Some (s, rest).
Proof.
  induction s as [|c s IH]; [reflexivity|].
  simpl flat_map. rewrite <- app_assoc, json_read_escape, IH. reflexivity.
Qed.

(** A string written by [json.dumps] denotes the string itself: nothing
    of it is cut off or lost. *)
Lemma json_loads_dumps (s : str) : json_loads_string (json_string s) = Some s.
Proof.
  unfold json_string, json_loads_string.
  change (is_char dquote dquote) with true. cbv iota.
  now rewrite json_read_body.
Qed.

(** ** The lines of the JSONL text *)

Lemma no_lf_app (a b : str) : no_lf (a ++ b) = no_lf a && no_lf b.
Proof. apply forallb_app. Qed.

Lemma no_lf_escape (c : ascii) : no_lf (json_escape c) = true.
Proof.
  destruct c as [[|] [|] [|] [|] [|] [|] [|] [|]]; reflexivity.
Qed.

Lemma no_lf_json_string (s : str) : no_lf (json_string s) = true.
Proof.
  unfold json_string. change (dquote :: ?x) with ([dquote] ++ x).
  rewrite !no_lf_app. change (no_lf [dquote]) with true. rewrite andb_true_r.
  simpl. induction s as [|c s IH]; [reflexivity|].
  simpl flat_map. now rewrite no_lf_app, no_lf_escape, IH.
Qed.

Lemma no_lf_uint (d : Decimal.uint) :
  no_lf (lit (NilEmpty.string_of_uint d)) = true.
Proof. induction d; simpl; auto. Qed.

Lemma no_lf_uint_zero (d : Decimal.uint) :
  no_lf (lit (NilZero.string_of_uint d)) = true.
Proof.
  destruct d; [reflexivity|exact (no_lf_uint _)..].
Qed.

Lemma no_lf_str_of_int (z : Z) : no_lf (str_of_int z) = true.
Proof.
  unfold str_of_int, NilZero.string_of_int.
  destruct (Z.to_int z) as [d|d]; [apply no_lf_uint_zero|].
  simpl. apply no_lf_uint_zero.
Qed.

Lemma no_lf_opt_str (o : option str) : no_lf (json_opt_str o) = true.
Proof. destruct o; [apply no_lf_json_string|reflexivity]. Qed.

Lemma no_lf_opt_int (o : option Z) : no_lf (json_opt_int o) = true.
Proof. destruct o; [apply no_lf_str_of_int|reflexivity]. Qed.

Lemma no_lf_join (sep : str) (parts : list str) :
  no_lf sep = true -> Forall (fun x => no_lf x = true) parts ->
  no_lf (join sep parts) = true.
Proof.
  intros Hs. induction 1 as [|p parts Hp _ IH]; [reflexivity|].
  destruct parts as [|q parts]; [exact Hp|].
  change (join sep (p :: q :: parts)) with (p ++ sep ++ join sep (q :: parts)).
  now rewrite !no_lf_app, Hp, Hs, IH.
Qed.

Lemma no_lf_member (key value : str) :
  no_lf value = true -> no_lf (json_string key ++ lit ": " ++ value) = true.
Proof.
  intro H. now rewrite !no_lf_app, no_lf_json_string, H.
Qed.

Lemma no_lf_dumps_case (c : Case.t) : no_lf (dumps_case c) = true.
Proof.
  unfold dumps_case, json_object. rewrite !no_lf_app.
  rewrite no_lf_join; [reflexivity|reflexivity|].
  repeat constructor; cbn [fst snd]; apply no_lf_member;
    auto using no_lf_json_string, no_lf_opt_str, no_lf_opt_int.
Qed.

Lemma lines_go_last (cur l : str) :
  no_lf l = true -> lines_go cur l = [cur ++ l].
Proof.
  revert cur. induction l as [|c l IH]; intros cur H; simpl.
  - now rewrite app_nil_r.
  - simpl in H. apply andb_prop in H as [Hc Hl].
    apply negb_true_iff in Hc. rewrite Hc, IH by exact Hl.
    now rewrite <- app_assoc.
Qed.

Lemma lines_go_next (cur l rest : str) :
  no_lf l = true -> lines_go cur (l ++ lf :: rest) = (cur ++ l) :: lines_go [] rest.
Proof.
  revert cur. induction l as [|c l IH]; intros cur H; simpl.
  - now rewrite app_nil_r.
  - simpl in H. apply andb_prop in H as [Hc Hl].
    apply negb_true_iff in Hc. rewrite Hc, IH by exact Hl.
    now rewrite <- app_assoc.
Qed.

Lemma lines_go_join (l : str) (ls : list str) :
  Forall (fun x => no_lf x = true) (l :: ls) ->
  lines_go [] (join [lf] (l :: ls)) = l :: ls.
Proof.
  revert l. induction ls as [|m ls IH]; intros l H.
  - simpl. apply lines_go_last. now inversion H.
  - change (join [lf] (l :: m :: ls)) with (l ++ [lf] ++ join [lf] (m :: ls)).
    simpl ([lf] ++ _). inversion H as [|? ? Hl Hr]; subst.
    rewrite lines_go_next by exact Hl. simpl. f_equal. now apply IH.
Qed.

(** The lines of joined texts that are not empty and hold no line feed
    are these texts. *)
Lemma lines_join (ls : list str) :
  Forall (fun x => no_lf x = true /\ x <> []) ls ->
  lines (join [lf] ls) = ls.
Proof.
  intro H. destruct ls as [|l ls]; [reflexivity|].
  assert (F : Forall (fun x => no_lf x = true) (l :: ls)).
  { eapply Forall_impl; [|exact H]. intros x [Hx _]. exact Hx. }
  unfold lines. destruct (join [lf] (l :: ls)) eqn:E.
  - exfalso. inversion H as [|? ? [_ Hl] _]; subst.
    destruct l; [contradiction|]. destruct ls; simpl in E; discriminate.
  - rewrite <- E. now apply lines_go_join.
Qed.

(** ** The exported rows *)

Lemma csv_record_nonempty (cases : list Case.t) :
  Forall (fun r : list str => r <> []) (csv_header :: map csv_record cases).
Proof.
  constructor; [discriminate|]. apply Forall_forall. intros r Hr.
  apply in_map_iff in Hr as (c & <- & _). discriminate.
Qed.

Lemma csv_records_export db query court year date_from date_to limit :
  csv_records (fst (export_cases_csv db query court year date_from date_to limit))
  = csv_header
      :: map csv_record (_fetch_export_rows db query court year date_from date_to limit).
Proof.
  rewrite export_cases_csv_spec. cbv zeta. cbn [fst].
  apply csv_records_written.
Qed.

Lemma lines_export db query court year date_from date_to limit :
  lines (fst (export_cases_jsonl db query court year date_from date_to limit))
  = map dumps_case (_fetch_export_rows db query court year date_from date_to limit).
Proof.
  unfold export_cases_jsonl. cbn [fst]. apply lines_join.
  apply Forall_forall. intros l Hl. apply in_map_iff in Hl as (c & <- & _).
  split; [apply no_lf_dumps_case|discriminate].
Qed.

Lemma fetched_rows_match db query court year date_from date_to limit :
  Forall (fun c => In c db
                   /\ holds_all (conditions query court year date_from date_to) c = true)
         (_fetch_export_rows db query court year date_from date_to limit).
Proof.
  apply Forall_forall. intros c Hc. unfold _fetch_export_rows in Hc.
  assert (H : In c (Sql.where_ (conditions query court year date_from date_to) db)).
  { unfold Sql.limit in Hc. destruct (_ <? 0); [exact Hc|].
    rewrite <- (firstn_skipn (Z.to_nat (Z.min limit MAX_EXPORT_ROWS))).
    apply in_or_app. now left. }
  rewrite SearchProps.where_filter in H. now apply filter_In in H.
Qed.

(** C8, as the code has it: for a requested limit [L] that is not
    negative, the export fetches [min(L, 10000)] rows at most, each of
    them a record of the store on which the conditions hold; the count
    that the CSV and the JSONL exports return is the number of these
    rows, which is the number of data records of the CSV text and the
    number of lines of the JSONL text. *)
Theorem export_row_count db query court year date_from date_to limit :
  0 <= limit ->
  exists cases : list Case.t,
    Forall (fun c => In c db
                     /\ holds_all (conditions query court year date_from date_to) c = true)
           cases
    /\ Z.of_nat (length cases) <= Z.min limit 10000
    /\ snd (export_cases_csv db query court year date_from date_to limit)
       = Z.of_nat (length cases)
    /\ csv_records (fst (export_cases_csv db query court year date_from date_to limit))
       = csv_header :: map csv_record cases
    /\ snd (export_cases_jsonl db query court year date_from date_to limit)
       = Z.of_nat (length cases)
    /\ lines (fst (export_cases_jsonl db query court year date_from date_to limit))
       = map dumps_case cases.
Proof.
  intro H.
  exists (_fetch_export_rows db query court year date_from date_to limit).
  split; [apply fetched_rows_match|]. split.
  { unfold _fetch_export_rows. apply limit_length. unfold MAX_EXPORT_ROWS. lia. }
  split; [now rewrite export_cases_csv_spec|].
  split; [apply csv_records_export|].
  split; [reflexivity|apply lines_export].
Qed.

(** Requesting [limit=50000] yields 10000 rows at most. *)
Lemma export_row_count_witness :
  snd (export_cases_csv Samples.sample_db (lit "smith") None None None None 50000) <= 10000
  /\ snd (export_cases_jsonl Samples.sample_db (lit "smith") None None None None 50000) <= 10000.
Proof.
  destruct (export_row_count Samples.sample_db (lit "smith") None None None None 50000
              ltac:(lia)) as (cases & _ & B & Ec & _ & Ej & _).
  rewrite Ec, Ej. lia.
Defined.

(** C8 as it is stated does not hold for every limit: [min(-1, 10000)]
    is -1, which the store reads as no limit at all, and the three
    matching records of the sample store are all exported. *)
Lemma export_negative_limit_unbounded :
  ~ (forall db query court year date_from date_to limit,
        snd (export_cases_csv db query court year date_from date_to limit)
        <= Z.min limit 10000).
Proof.
  intro H.
  specialize (H Samples.sample_db (lit "smith") None None None None (-1)).
  vm_compute in H. apply H. reflexivity.
Qed.

(** The count is the number of rows written, not the number of matches:
    three records match "smith", the limit is 2. *)
Example export_count_is_not_total :
  length (filter (holds_all (conditions (lit "smith") None None None None))
            Samples.sample_db) = 3%nat
  /\ snd (export_cases_csv Samples.sample_db (lit "smith") None None None None 2) = 2
  /\ snd (export_cases_jsonl Samples.sample_db (lit "smith") None None None None 2) = 2.
Proof. repeat split; vm_compute; reflexivity. Qed.

Lemma dumps_case_headnote (c : Case.t) :
  exists before,
    dumps_case c
    = before ++ json_string (lit "headnote") ++ lit ": "
      ++ json_opt_str (Case.headnote c) ++ lit "}".
Proof.
  exists (lit "{"
          ++ join (lit ", ")
               (map (fun kv => json_string (fst kv) ++ lit ": " ++ snd kv)
                  [(lit "id", json_string (Case.id c));
                   (lit "title", json_string (Case.title c));
                   (lit "citation", json_opt_str (Case.citation c));
                   (lit "court", json_opt_str (Case.court c));
                   (lit "date", json_opt_str (Case.date c));
                   (lit "year", json_opt_int (Case.year c));
                   (lit "judges", json_opt_str (Case.judges c))])
          ++ lit ", ").
  unfold dumps_case, json_object. cbn [map join fst snd].
  rewrite <- !app_assoc. reflexivity.
Qed.

(** C9: the CSV text starts with the line
    [id,title,citation,court,date,year,judges,headnote]; its first record
    is this header and each of its data records is the record of a
    fetched case, of eight fields of which the last, the headnote, is the
    first 500 characters of the case's headnote; the JSONL line of the
    same case ends with the member [headnote] whose value denotes the
    whole headnote. *)
Theorem csv_header_and_headnote db query court year date_from date_to limit :
  exists cases : list Case.t,
    cases = _fetch_export_rows db query court year date_from date_to limit
    /\ (exists rest,
          fst (export_cases_csv db query court year date_from date_to limit)
          = lit "id,title,citation,court,date,year,judges,headnote" ++ crlf ++ rest)
    /\ csv_records (fst (export_cases_csv db query court year date_from date_to limit))
       = map lit ["id"; "title"; "citation"; "court"; "date"; "year"; "judges";
                  "headnote"]%string
         :: map csv_record cases
    /\ Forall (fun c =>
                 exists f0 f1 f2 f3 f4 f5 f6 h,
                   csv_record c = [f0; f1; f2; f3; f4; f5; f6; h]
                   /\ h = firstn 500 (or_empty (Case.headnote c))
                   /\ (length h <= 500)%nat) cases
    /\ lines (fst (export_cases_jsonl db query court year date_from date_to limit))
       = map dumps_case cases
    /\ Forall (fun c =>
                 (exists before,
                    dumps_case c
                    = before ++ json_string (lit "headnote") ++ lit ": "
                      ++ json_opt_str (Case.headnote c) ++ lit "}")
                 /\ match Case.headnote c with
                    | Some h => json_loads_string (json_opt_str (Case.headnote c)) = Some h
                    | None => json_opt_str (Case.headnote c) = lit "null"
                    end) cases.
Proof.
  eexists. split; [reflexivity|]. split; [|split; [|split; [|split]]].
  - rewrite export_cases_csv_spec. cbv zeta. cbn [fst map concat].
    eexists. reflexivity.
  - apply csv_records_export.
  - apply Forall_forall. intros c _. unfold csv_record.
    do 8 eexists. split; [reflexivity|]. split.
    + apply HighlightProps.slice_to_firstn. lia.
    + apply slice_500_length.
  - apply lines_export.
  - apply Forall_forall. intros c _. split; [apply dumps_case_headnote|].
    destruct (Case.headnote c) as [h|]; [apply json_loads_dumps|reflexivity].
Qed.

(** The record with a headnote of 600 characters: 500 of them in the
    CSV record, all 600 in the JSONL line. *)
Example long_headnote_csv_and_jsonl :
  nth 7 (csv_record Samples.row_with_long_headnote) [] = repeat "a"%char 500
  /\ json_loads_string (json_opt_str (Case.headnote Samples.row_with_long_headnote))
     = Some (repeat "a"%char 600).
Proof. split; vm_compute; reflexivity. Qed.

End ExportProps.

(* ===================================================================== *)
(** * Properties of the court statistics *)
(* ===================================================================== *)

Module StatsProps.
Import Py Stats.

Lemma code_inj (a b : ascii) : code a = code b -> a = b.
Proof.
  unfold code. intro H.
  rewrite <- (ascii_N_embedding a), <- (ascii_N_embedding b). now rewrite H.
Qed.

Lemma str_eqb_eq (a b : str) : str_eqb a b = true <-> a = b.
Proof.
  unfold str_eqb. revert b. induction a as [|x a IH]; intros [|y b]; simpl;
    try (split; [discriminate|discriminate]); try (split; reflexivity).
  destruct (N.compare_spec (code x) (code y)) as [E|L|G].
  - apply code_inj in E. subst y. rewrite IH. split; [now intros ->|now intros [=]].
  - split; [discriminate|]. intros [= -> _]. lia.
  - split; [discriminate|]. intros [= -> _]. lia.
Qed.

Lemma key_eqb_eq (a b : option str) : key_eqb a b = true <-> a = b.
Proof.
  destruct a as [x|], b as [y|]; simpl;
    try (split; [discriminate|discriminate]); try (split; reflexivity).
  rewrite str_eqb_eq. split; [now intros ->|now intros [=]].
Qed.

Lemma distinct_in (keys : list (option str)) (k : option str) :
  In k (distinct keys) <-> In k keys.
Proof.
  induction keys as [|k0 keys IH]; simpl; [reflexivity|].
  rewrite filter_In, IH. split.
  - intros [H|[H _]]; auto.
  - intros [H|H]; [now left|].
    destruct (key_eqb k0 k) eqn:E.
    + left. now apply key_eqb_eq.
    + right. now split.
Qed.

(** Each value of the column makes one group. *)
Lemma distinct_nodup (keys : list (option str)) : NoDup (distinct keys).
Proof.
  induction keys as [|k0 keys IH]; simpl; constructor.
  - intro H. apply filter_In in H as [_ H].
    assert (E : key_eqb k0 k0 = true) by now apply key_eqb_eq.
    rewrite E in H. discriminate.
  - now apply NoDup_filter.
Qed.

Lemma insert_desc_in (r x : option str * Z) (rows : list (option str * Z)) :
  In x (insert_desc r rows) <-> x = r \/ In x rows.
Proof.
  induction rows as [|r' rows IH]; simpl.
  - intuition congruence.
  - destruct (snd r' <=? snd r); simpl; [intuition congruence|].
    rewrite IH. intuition congruence.
Qed.

(** Ordering the rows keeps them all and adds none. *)
Lemma order_by_count_desc_in (x : option str * Z) (rows : list (option str * Z)) :
  In x (order_by_count_desc rows) <-> In x rows.
Proof.
  unfold order_by_count_desc. induction rows as [|r rows IH]; simpl; [reflexivity|].
  rewrite insert_desc_in, IH. intuition congruence.
Qed.






(** The statistics of the sample rows, in the order of the counts. *)
Example court_stats_sample :
  get_court_stats Samples.sample_db
  = [ {| court := Some (lit "Supreme Court"); count := 2 |};
      {| court := Some unknown; count := 1 |};
      {| court := Some (lit "High Court"); count := 1 |} ].
Proof. vm_compute. reflexivity. Qed.

End StatsProps.

(* ===================================================================== *)
(** * The highlighter on the inputs of tests/test_export.py *)
(* ===================================================================== *)

Module HighlightTests.
Import Py Highlight.

(** tests/test_export.py, [test_highlight_single_term] *)
Example test_highlight_single_term :
highlight_snippet (Some (lit "The contract was breached.")) (lit "contract") 200 default_tag
= Some (lit "The <mark>contract</mark> was breached.").
Proof. vm_compute. reflexivity. Qed.

(** [test_highlight_multi_term] *)
Example test_highlight_multi_term :
highlight_snippet
  (Some (lit "The contract dispute involved a breach of agreement."))
  (lit "contract breach") 200 default_tag
= Some (lit "The <mark>contract</mark> dispute involved a <mark>breach</mark> of agreement.").
Proof. vm_compute. reflexivity. Qed.

(** [test_highlight_case_insensitive] *)
Example test_highlight_case_insensitive :
highlight_snippet (Some (lit "CONTRACT law is complex.")) (lit "contract") 200 default_tag
= Some (lit "<mark>CONTRACT</mark> law is complex.").
Proof. vm_compute. reflexivity. Qed.

(** [test_highlight_no_match] *)
Example test_highlight_no_match :
highlight_snippet (Some (lit "Some unrelated text here.")) (lit "quantum") 200 default_tag
= Some (lit "Some unrelated text here.").
Proof. vm_compute. reflexivity. Qed.

(** [test_highlight_empty_query] *)
Example test_highlight_empty_query :
highlight_snippet (Some (lit "Some text content.")) [] 10 default_tag
= Some (lit "Some text ...").
Proof. vm_compute. reflexivity. Qed.

(** [test_highlight_long_text_centering]: 500 A's, " contract ", 500 B's *)
Example test_highlight_long_text_centering :
highlight_snippet
  (Some (repeat "A"%char 500 ++ lit " contract " ++ repeat "B"%char 500))
  (lit "contract") 100 default_tag
= Some (lit "..." ++ repeat "A"%char 32 ++ lit " <mark>contract</mark> "
        ++ repeat "B"%char 58 ++ lit "...").
Proof. vm_compute. reflexivity. Qed.

End HighlightTests.

(* ===================================================================== *)
(** * Further properties of the search service *)
(* ===================================================================== *)

Module SearchMore.
Import Py Spec MoreSpec.

Lemma in_firstn {A} (x : A) (n : nat) (l : list A) : In x (firstn n l) -> In x l.
Proof.
  intro H. rewrite <- (firstn_skipn n l). apply in_or_app. now left.
Qed.

Lemma in_skipn {A} (x : A) (n : nat) (l : list A) : In x (skipn n l) -> In x l.
Proof.
  intro H. rewrite <- (firstn_skipn n l). apply in_or_app. now right.
Qed.

Lemma in_limit {R} (x : R) (n : Z) (rows : list R) : In x (Sql.limit n rows) -> In x rows.
Proof.
  unfold Sql.limit. destruct (n <? 0); [trivial|apply in_firstn].
Qed.

(** Cutting a list in consecutive pieces of [n] elements and putting
    [k] of them together gives the list back when [k * n] reaches its
    length. *)
Lemma chunks_concat {A} (n : nat) (k : nat) (l : list A) :
  (1 <= n)%nat -> (length l <= k * n)%nat ->
  concat (map (fun i => firstn n (skipn (i * n) l)) (seq 0 k)) = l.
Proof.
  intro Hn. revert l. induction k as [|k IH]; intros l Hl.
  - destruct l; [reflexivity|simpl in Hl; lia].
  - change (seq 0 (S k)) with (0%nat :: seq 1 k). rewrite <- seq_shift.
    cbn [map concat]. rewrite map_map. change (skipn (0 * n) l) with l.
    transitivity (firstn n l ++ skipn n l); [|apply firstn_skipn].
    f_equal. rewrite <- (IH (skipn n l)).
    + f_equal. apply map_ext. intro i. rewrite skipn_skipn.
      do 2 f_equal. lia.
    + rewrite length_skipn. simpl in Hl. lia.
Qed.

(** X1: for [page >= 1] and [per_page >= 1] the number of results of a
    page is [per_page], or what is left of the matching records after
    the offset when that is less, and none when the offset is beyond
    them. *)
Theorem search_page_size db query court year date_from date_to page per_page :
  1 <= page -> 1 <= per_page ->
  exists resp,
    Search.search_cases db query court year date_from date_to page per_page = Ok resp
    /\ Z.of_nat (length (SearchResponse.results resp))
       = Z.min per_page
           (Z.max 0 (SearchResponse.total resp - (page - 1) * per_page)).
Proof.
  intros Hp Hn. eexists. split; [apply SearchProps.search_cases_returns; lia|].
  cbn [SearchResponse.results SearchResponse.total].
  rewrite length_map. unfold Sql.limit, Sql.offset.
  destruct (Z.ltb_spec per_page 0); [lia|].
  rewrite length_firstn, length_skipn. nia.
Qed.

Lemma search_page_size_witness :
  exists resp,
    Search.search_cases Samples.sample_db (lit "smith") None None None None 2 2 = Ok resp
    /\ Z.of_nat (length (SearchResponse.results resp)) = 1.
Proof.
  destruct (search_page_size Samples.sample_db (lit "smith") None None None None 2 2
              ltac:(lia) ltac:(lia)) as (resp & E & L).
  exists resp. split; [exact E|]. rewrite L.
  rewrite SearchProps.search_cases_returns in E by lia. injection E as <-.
  vm_compute. reflexivity.
Defined.

Lemma sum_lengths {A} (ls : list (list A)) :
  sum (map (fun l => Z.of_nat (length l)) ls) = Z.of_nat (length (concat ls)).
Proof.
  induction ls as [|l ls IH]; [reflexivity|]. simpl. rewrite length_app, IH. lia.
Qed.

(** X2: for [per_page >= 1], the numbers of results of the pages 1, 2,
    ... up to the number of pages add up to the total of the search: the
    pages together hold as many results as there are matching records. *)
Theorem search_pages_cover db query court year date_from date_to per_page :
  1 <= per_page ->
  sum (map (fun page =>
              Z.of_nat (length (page_results db query court year date_from date_to
                                  per_page page)))
           (seq 1 (page_count db query court year date_from date_to per_page)))
  = Z.of_nat (length (filter (holds_all
                                (Search.conditions query court year date_from date_to)) db)).
Proof.
  intro Hn. unfold page_count.
  rewrite SearchProps.search_cases_returns by lia.
  cbn [SearchResponse.total_pages].
  rewrite SearchProps.where_filter.
  set (rows := filter _ db).
  set (k := Z.to_nat ((Z.of_nat (length rows) + per_page - 1) / per_page)).
  transitivity
    (Z.of_nat (length (concat (map (fun i => firstn (Z.to_nat per_page)
                                               (skipn (i * Z.to_nat per_page) rows))
                                   (seq 0 k))))).
  - rewrite <- sum_lengths, map_map, <- seq_shift, map_map. f_equal.
    apply map_ext. intro i. unfold page_results.
    rewrite SearchProps.search_cases_returns by lia.
    cbn [SearchResponse.results]. rewrite SearchProps.where_filter. fold rows.
    unfold Sql.limit, Sql.offset. destruct (Z.ltb_spec per_page 0); [lia|].
    rewrite length_map. do 4 f_equal. nia.
  - do 2 f_equal. apply chunks_concat; [lia|].
    destruct (SearchProps.ceil_div (Z.of_nat (length rows)) per_page
                ltac:(lia) Hn) as [[_ H] _].
    subst k. nia.
Qed.

Lemma search_pages_cover_witness :
  sum (map (fun page =>
              Z.of_nat (length (page_results Samples.sample_db (lit "smith")
                                  None None None None 2 page)))
           (seq 1 (page_count Samples.sample_db (lit "smith") None None None None 2)))
  = 3.
Proof.
  etransitivity;
    [exact (search_pages_cover Samples.sample_db (lit "smith") None None None None 2
              ltac:(lia))|].
  vm_compute. reflexivity.
Defined.

(** ** The conditions on the results *)

Lemma results_are_matching db query court year date_from date_to page per_page resp res :
  Search.search_cases db query court year date_from date_to page per_page = Ok resp ->
  In res (SearchResponse.results resp) ->
  exists r, In r db /\ res = Search.format_result r
            /\ holds_all (Search.conditions query court year date_from date_to) r = true.
Proof.
  unfold Search.search_cases, floordiv. destruct (per_page =? 0); [discriminate|].
  cbn [bind]. intros [= <-]. cbn [SearchResponse.results]. intro H.
  apply in_map_iff in H as (r & <- & H). exists r.
  apply in_limit, in_skipn in H. rewrite SearchProps.where_filter in H.
  apply filter_In in H as [H1 H2]. auto.
Qed.

(** X3: every result of a search satisfies the filters that were
    supplied: with a court filter its court is not null, with a
    [date_from] its date is not null and not before it, with a [date_to]
    its date is not null and not after it (dates compared as texts). *)
Theorem search_results_satisfy_filters
        db query court year date_from date_to page per_page resp res :
  Search.search_cases db query court year date_from date_to page per_page = Ok resp ->
  In res (SearchResponse.results resp) ->
  (forall ct, court = Some ct -> ct <> [] -> CaseResponse.court res <> None)
  /\ (forall d, date_from = Some d -> d <> [] ->
      exists x, CaseResponse.date res = Some x /\ Sql.str_compare x d <> Lt)
  /\ (forall d, date_to = Some d -> d <> [] ->
      exists x, CaseResponse.date res = Some x /\ Sql.str_compare x d <> Gt).
Proof.
  intros E Hin.
  destruct (results_are_matching _ _ _ _ _ _ _ _ _ _ E Hin) as (r & _ & -> & H).
  unfold holds_all, Search.conditions in H. rewrite !forallb_app in H.
  apply andb_prop in H as [_ H]. apply andb_prop in H as [Hc H].
  apply andb_prop in H as [_ H]. apply andb_prop in H as [Hf Ht].
  cbn [Search.format_result CaseResponse.court CaseResponse.date].
  split; [|split].
  - intros ct -> Hne. destruct ct; [contradiction|]. simpl in Hc.
    destruct (Case.court r); [discriminate|discriminate].
  - intros d -> Hne. destruct d as [|c d]; [contradiction|]. simpl in Hf.
    destruct (Case.date r) as [x|]; [|discriminate]. exists x. split; [reflexivity|].
    simpl in Hf. intro C. rewrite C in Hf. discriminate.
  - intros d -> Hne. destruct d as [|c d]; [contradiction|]. simpl in Ht.
    destruct (Case.date r) as [x|]; [|discriminate]. exists x. split; [reflexivity|].
    simpl in Ht. intro C. rewrite C in Ht. discriminate.
Qed.

Lemma search_results_satisfy_filters_witness :
  exists x, CaseResponse.date (Search.format_result Samples.make_case_row) = Some x
            /\ Sql.str_compare x (lit "2024-01-01") <> Lt.
Proof.
  refine (proj1 (proj2 (search_results_satisfy_filters
            Samples.sample_db (lit "smith") None None (Some (lit "2024-01-01")) None 1 20
            _ (Search.format_result Samples.make_case_row) _ _)) (lit "2024-01-01") eq_refl _).
  - rewrite SearchProps.search_cases_returns by lia. reflexivity.
  - vm_compute. left. reflexivity.
  - discriminate.
Defined.

(** ** The text condition *)

Lemma like_any (s : str) : Sql.like (lit "%") s = true.
Proof. induction s as [|c s IH]; [reflexivity|]. simpl in *. exact IH. Qed.

Lemma wildcard_free_cons (c : ascii) (p : str) :
  wildcard_free (c :: p) = true ->
  Ascii.eqb c "%" = false /\ Ascii.eqb c "_" = false /\ wildcard_free p = true.
Proof.
  simpl. intro H. apply andb_prop in H as [H1 H2].
  apply negb_true_iff, orb_false_elim in H1 as [? ?]. auto.
Qed.

Lemma like_prefix (p s : str) :
  wildcard_free p = true -> Sql.like (p ++ lit "%") s = starts_with p s.
Proof.
  revert s. induction p as [|c p IH]; intros s H.
  - apply like_any.
  - apply wildcard_free_cons in H as (H1 & H2 & H3).
    simpl. rewrite H1, H2. destruct s as [|d s]; [reflexivity|].
    now rewrite IH.
Qed.

Lemma like_percent (p s : str) :
  Sql.like ("%"%char :: p) s
  = Sql.like p s
    || match s with
       | [] => false
       | _ :: s' => Sql.like ("%"%char :: p) s'
       end.
Proof. destruct s; reflexivity. Qed.

Lemma like_infix (p s : str) :
  wildcard_free p = true ->
  Sql.like (lit "%" ++ p ++ lit "%") s = containsb p s.
Proof.
  intro H. change (lit "%" ++ p ++ lit "%") with ("%"%char :: (p ++ lit "%")).
  induction s as [|c s IH]; rewrite like_percent; cbn [containsb];
    rewrite like_prefix by exact H; [reflexivity|now rewrite IH].
Qed.

Lemma lower_wildcard (c : ascii) :
  (Ascii.eqb (Sql.ascii_lower c) "%" || Ascii.eqb (Sql.ascii_lower c) "_")
  = (Ascii.eqb c "%" || Ascii.eqb c "_").
Proof. destruct c as [[|] [|] [|] [|] [|] [|] [|] [|]]; reflexivity. Qed.

Lemma lower_wildcard_free (p : str) :
  wildcard_free (map Sql.ascii_lower p) = wildcard_free p.
Proof.
  induction p as [|c p IH]; [reflexivity|]. simpl. now rewrite lower_wildcard, IH.
Qed.

Lemma lower_nul (c : ascii) : (code (Sql.ascii_lower c) =? 0)%N = (code c =? 0)%N.
Proof. destruct c as [[|] [|] [|] [|] [|] [|] [|] [|]]; reflexivity. Qed.

Lemma until_nul_lower (s : str) :
  Sql.until_nul (map Sql.ascii_lower s) = map Sql.ascii_lower (Sql.until_nul s).
Proof.
  induction s as [|c s IH]; [reflexivity|]. simpl. rewrite lower_nul.
  destruct (code c =? 0)%N; [reflexivity|]. simpl. now rewrite IH.
Qed.

Lemma until_nul_free (s : str) : nul_free s = true -> Sql.until_nul s = s.
Proof.
  induction s as [|c s IH]; [reflexivity|]. simpl. intro H.
  apply andb_prop in H as [Hc Hs]. apply negb_true_iff in Hc. rewrite Hc.
  now rewrite IH.
Qed.

(** For a pattern free of wildcards and of NUL, [column ILIKE %pattern%]
    is the substring test up to ASCII case, on the value up to its first
    NUL. *)
Lemma ilike_substring (p s : str) :
  wildcard_free p = true -> nul_free p = true ->
  Sql.ilike (Some s) (Search.percent ++ p ++ Search.percent)
  = Some (containsb (map Sql.ascii_lower p) (map Sql.ascii_lower (Sql.until_nul s))).
Proof.
  intros H N. unfold Sql.ilike, Search.percent. f_equal.
  rewrite !until_nul_lower, (until_nul_free (lit "%" ++ p ++ lit "%")).
  - rewrite !map_app. change (map Sql.ascii_lower (lit "%")) with (lit "%").
    apply like_infix. now rewrite lower_wildcard_free.
  - unfold nul_free in *. rewrite !forallb_app, N. reflexivity.
Qed.

Lemma or_four (a b c d : Sql.tri) :
  Sql.is_true (Sql.or_ [a; b; c; d])
  = Sql.is_true a || Sql.is_true b || Sql.is_true c || Sql.is_true d.
Proof. destruct a as [[|]|], b as [[|]|], c as [[|]|], d as [[|]|]; reflexivity. Qed.

Lemma ilike_ci_in (p : str) (column : option str) :
  wildcard_free p = true -> nul_free p = true ->
  Sql.is_true (Sql.ilike column (Search.percent ++ p ++ Search.percent)) = ci_in p column.
Proof.
  intros H N. destruct column as [s|]; [|reflexivity].
  rewrite ilike_substring by assumption. simpl. now destruct (containsb _ _).
Qed.

Lemma text_condition (query : str) (r : Case.t) :
  wildcard_free query = true -> nul_free query = true -> query <> [] ->
  forallb (fun c : Case.t -> Sql.tri => Sql.is_true (c r))
    (if truthy_str query then
       [fun c => Sql.or_ [Sql.ilike (Some (Case.title c)) (Search.percent ++ query ++ Search.percent);
                          Sql.ilike (Case.headnote c) (Search.percent ++ query ++ Search.percent);
                          Sql.ilike (Case.text c) (Search.percent ++ query ++ Search.percent);
                          Sql.ilike (Case.citation c) (Search.percent ++ query ++ Search.percent)]]
     else [])
  = ci_in query (Some (Case.title r)) || ci_in query (Case.headnote r)
    || ci_in query (Case.text r) || ci_in query (Case.citation r).
Proof.
  intros H N Hne. destruct query as [|c q]; [contradiction|].
  cbn [truthy_str forallb]. rewrite andb_true_r, or_four.
  now rewrite !ilike_ci_in by assumption.
Qed.

(** X4: for a query that is not empty and holds no wildcard ([%],
    [_]) and no NUL character, every record that a search or an export
    selects holds the query, up to ASCII case, in its title, headnote,
    text or citation (in the part of it before a NUL character, if it
    has one); and with no other filter, the records selected are exactly
    those. *)
Theorem text_filter_is_substring query court year date_from date_to (r : Case.t) :
  wildcard_free query = true -> nul_free query = true -> query <> [] ->
  (holds_all (Search.conditions query court year date_from date_to) r = true ->
   ci_in query (Some (Case.title r)) || ci_in query (Case.headnote r)
   || ci_in query (Case.text r) || ci_in query (Case.citation r) = true)
  /\ holds_all (Search.conditions query None None None None) r
     = ci_in query (Some (Case.title r)) || ci_in query (Case.headnote r)
       || ci_in query (Case.text r) || ci_in query (Case.citation r).
Proof.
  intros H N Hne. unfold holds_all, Search.conditions. cbv zeta.
  rewrite !forallb_app, (text_condition query r H N Hne). split.
  - intro A. now apply andb_prop in A as [A _].
  - cbn [forallb]. now rewrite !andb_true_r.
Qed.

Lemma text_filter_is_substring_witness :
  holds_all (Search.conditions (lit "SMITH") None None None None) Samples.make_case_row
  = true.
Proof.
  etransitivity;
    [exact (proj2 (text_filter_is_substring (lit "SMITH") None None None None
                     Samples.make_case_row eq_refl eq_refl ltac:(discriminate)))|].
  vm_compute. reflexivity.
Defined.

(** A query that ends at a NUL character: what follows the NUL is not
    looked at, and a title that holds only the part before it matches. *)
Example query_with_nul :
  holds_all (Search.conditions (lit "smith" ++ [ascii_of_N 0] ++ lit "zz")
               None None None None)
    {| Case.id := lit "case_007"; Case.title := lit "Blacksmith";
       Case.citation := None; Case.court := None; Case.date := None;
       Case.year := None; Case.judges := None; Case.headnote := None;
       Case.text := None |} = true.
Proof. vm_compute. reflexivity. Qed.

Lemma like_all_percent (p s : str) :
  all_percent p = true -> p <> [] -> Sql.like p s = true.
Proof.
  induction p as [|c p IH]; [contradiction|]. intros H _.
  simpl in H. apply andb_prop in H as [Hc Hp]. apply Ascii.eqb_eq in Hc. subst c.
  destruct p as [|d p].
  - apply like_any.
  - rewrite like_percent, IH; [reflexivity|exact Hp|discriminate].
Qed.

Lemma lower_percent (c : ascii) :
  Ascii.eqb (Sql.ascii_lower c) "%" = Ascii.eqb c "%".
Proof. destruct c as [[|] [|] [|] [|] [|] [|] [|] [|]]; reflexivity. Qed.

Lemma lower_all_percent (p : str) :
  all_percent (map Sql.ascii_lower p) = all_percent p.
Proof.
  induction p as [|c p IH]; [reflexivity|]. simpl. now rewrite lower_percent, IH.
Qed.

Lemma until_nul_percent (p : str) : all_percent p = true -> Sql.until_nul p = p.
Proof.
  induction p as [|c p IH]; [reflexivity|]. simpl. intro H.
  apply andb_prop in H as [Hc Hp]. apply Ascii.eqb_eq in Hc. subst c.
  simpl. now rewrite IH.
Qed.

(** X5: the query is not escaped in the [LIKE] pattern: a query made of
    percent signs selects every record of the store. *)
Theorem percent_query_matches_all db query page per_page limit :
  all_percent query = true -> query <> [] -> per_page <> 0 -> 0 <= limit ->
  exists resp,
    Search.search_cases db query None None None None page per_page = Ok resp
    /\ SearchResponse.total resp = Z.of_nat (length db)
    /\ ExportService._fetch_export_rows db query None None None None limit
       = firstn (Z.to_nat (Z.min limit 10000)) db.
Proof.
  intros H Hne Hp Hl.
  assert (A : forall r : Case.t,
             holds_all (Search.conditions query None None None None) r = true).
  { intro r. unfold holds_all, Search.conditions. cbv zeta.
    rewrite !forallb_app. cbn [forallb]. rewrite !andb_true_r.
    destruct query as [|c q]; [contradiction|].
    cbn [truthy_str forallb]. rewrite andb_true_r, or_four.
    assert (P : all_percent (map Sql.ascii_lower
                                (Search.percent ++ (c :: q) ++ Search.percent)) = true).
    { rewrite lower_all_percent. unfold all_percent, Search.percent in *.
      rewrite !forallb_app. now rewrite H. }
    unfold Sql.ilike at 1. rewrite (until_nul_percent _ P).
    rewrite like_all_percent; [reflexivity|exact P|discriminate]. }
  assert (F : filter (holds_all (Search.conditions query None None None None)) db = db).
  { induction db as [|r db IH]; [reflexivity|]. simpl. now rewrite A, IH. }
  eexists. split; [now apply SearchProps.search_cases_returns|].
  cbn [SearchResponse.total]. rewrite SearchProps.where_filter, F.
  split; [reflexivity|].
  rewrite ExportProps.fetch_export_rows_spec by lia.
  now rewrite SearchProps.export_conditions_eq, F.
Qed.

Lemma percent_query_matches_all_witness :
  exists resp,
    Search.search_cases Samples.sample_db (lit "%") None None None None 1 20 = Ok resp
    /\ SearchResponse.total resp = 4.
Proof.
  destruct (percent_query_matches_all Samples.sample_db (lit "%") 1 20 1000 eq_refl
              ltac:(discriminate) ltac:(discriminate) ltac:(lia)) as (resp & E & T & _).
  exists resp. split; [exact E|exact T].
Defined.

(** X23: the snippet of a result is missing exactly when the case has
    neither a headnote nor a text that is not empty; a headnote that is
    not empty is the snippet in full, whatever its length; without one,
    the snippet is cut from the text, ends with "..." and has 303
    characters at most. *)
Theorem snippet_of_spec (c : Case.t) :
  (Search.snippet_of c = None
   <-> truthy_opt_str (Case.headnote c) = false /\ truthy_opt_str (Case.text c) = false)
  /\ (forall h, Case.headnote c = Some h -> h <> [] -> Search.snippet_of c = Some h)
  /\ (truthy_opt_str (Case.headnote c) = false ->
      forall s, Search.snippet_of c = Some s ->
                (length s <= 303)%nat /\ exists t, s = t ++ lit "...").
Proof.
  unfold Search.snippet_of, or_opt_str. split; [|split].
  - destruct (Case.headnote c) as [[|a h]|], (Case.text c) as [[|b t]|]; simpl;
      split; try discriminate; try tauto; intros [? ?]; discriminate.
  - intros h -> Hne. destruct h; [contradiction|reflexivity].
  - intros Hh s. rewrite Hh.
    destruct (Case.text c) as [[|b t]|]; cbn [truthy_str]; try discriminate.
    intros [= <-]. split; [|eauto].
    rewrite length_app, (HighlightProps.slice_to_firstn (b :: t) 300) by lia.
    rewrite length_firstn. change (Z.to_nat 300) with 300%nat.
    change (length ["."%char; "."%char; "."%char]) with 3%nat. lia.
Qed.

Lemma snippet_of_spec_witness :
  Search.snippet_of Samples.row_with_long_headnote = Some (repeat "a"%char 600).
Proof.
  apply (proj1 (proj2 (snippet_of_spec Samples.row_with_long_headnote))
           (repeat "a"%char 600) eq_refl).
  discriminate.
Defined.

End SearchMore.

(* ===================================================================== *)
(** * Further properties of the snippet highlighter *)
(* ===================================================================== *)

Module HighlightMore.
Import Py Highlight Spec MoreSpec.

(** ** One substitution pass *)

Lemma sub_go_skip (tag tok : str) (k : nat) (s : str) :
  tok <> [] -> sub_go tag tok k s = sub_go tag tok 0 (skipn k s).
Proof.
  intro Hne. revert k. induction s as [|c s IH]; intro k.
  - rewrite skipn_nil. destruct tok; [contradiction|]. now destruct k.
  - destruct k as [|k]; [reflexivity|]. simpl. apply IH.
Qed.

Lemma sub_go_unchanged (tag tok s : str) :
  (forall k, match_here tok (skipn k s) = false) -> sub_go tag tok 0 s = s.
Proof.
  induction s as [|c s IH]; intro H.
  - specialize (H 0%nat). simpl in H. destruct tok; [discriminate|reflexivity].
  - pose proof (H 0%nat) as H0. simpl in H0. simpl. rewrite H0. f_equal.
    apply IH. intro k. apply (H (S k)).
Qed.

Lemma sub_go_first (tag tok s : str) (i : nat) :
  tok <> [] ->
  match_here tok (skipn i s) = true ->
  (forall j, (j < i)%nat -> match_here tok (skipn j s) = false) ->
  sub_go tag tok 0 s
  = firstn i s ++ wrap tag (firstn (length tok) (skipn i s))
    ++ sub_go tag tok 0 (skipn (i + length tok) s).
Proof.
  intro Hne. revert s. induction i as [|i IH]; intros s Hm Hl.
  - simpl in Hm. destruct s as [|c s].
    + destruct tok; [contradiction|discriminate].
    + simpl sub_go. rewrite Hm. destruct tok as [|a tok]; [contradiction|].
      rewrite sub_go_skip by discriminate. reflexivity.
  - destruct s as [|c s].
    + simpl in Hm. destruct tok; [contradiction|discriminate].
    + pose proof (Hl 0%nat ltac:(lia)) as H0. simpl in H0.
      simpl sub_go. rewrite H0. simpl. f_equal.
      apply IH; [exact Hm|]. intros j Hj. apply (Hl (S j)). lia.
Qed.

Lemma match_here_occurs (tok s : str) (k : nat) :
  tok <> [] -> (forall i, ~ occurs_at tok s i) -> match_here tok (skipn k s) = false.
Proof.
  intros Hne H. destruct (match_here tok (skipn k s)) eqn:E; [|reflexivity].
  exfalso. apply HighlightProps.match_here_spec in E as [L M]. rewrite length_skipn in L.
  apply (H k). split; [|exact M]. destruct tok; [contradiction|]. simpl in L. simpl. lia.
Qed.

Lemma occurs_nowhere_nonempty (tok s : str) :
  (forall i, ~ occurs_at tok s i) -> tok <> [].
Proof.
  intros H ->. apply (H 0%nat). split; [simpl; lia|reflexivity].
Qed.

(** X6: for a tag without a backslash, a substitution pass for a token
    that matches nowhere in the snippet, case-insensitively, leaves the
    snippet as it is. *)
Theorem re_sub_without_occurrence (tag tok s : str) :
  plain_tag tag = true ->
  (forall i, ~ token_at tok s i) -> re_sub tag tok s = s.
Proof.
  intros _ H.
  assert (O : forall i, ~ occurs_at tok s i)
    by (intros i O; apply (H i); now apply HighlightProps.token_at_occurs).
  apply sub_go_unchanged. intro k.
  apply match_here_occurs; [|exact O]. now apply occurs_nowhere_nonempty with s.
Qed.

Lemma no_occurrence_by_search (tok s : str) :
  re_search [tok] s = None -> forall i, ~ occurs_at tok s i.
Proof.
  intros H i O. apply (HighlightProps.re_search_none _ _ H i).
  exists tok. split; [now left|exact O].
Qed.

Lemma re_sub_without_occurrence_witness :
  re_sub (lit "mark") (lit "quantum") (lit "Some unrelated text here.")
  = lit "Some unrelated text here.".
Proof.
  apply re_sub_without_occurrence; [reflexivity|].
  intros i T. apply HighlightProps.token_at_occurs in T. revert i T.
  apply no_occurrence_by_search. vm_compute. reflexivity.
Defined.

Lemma re_sub_decompose (tag tok s : str) (i : nat) :
  tok <> [] -> leftmost_match [tok] s i ->
  re_sub tag tok s
  = firstn i s ++ wrap tag (firstn (length tok) (skipn i s))
    ++ re_sub tag tok (skipn (i + length tok) s).
Proof.
  intros Hne [Hi Hl]. unfold re_sub.
  assert (M : forall j, (j <= length s)%nat ->
                        match_here tok (skipn j s) = true <-> some_token_at [tok] s j).
  { intros j Hj. rewrite <- (HighlightProps.alt_here_spec [tok] s j Hj).
    unfold alt_here. simpl. now rewrite orb_false_r. }
  pose proof (HighlightProps.some_token_at_bound _ _ _ Hi) as Bi.
  apply sub_go_first; [exact Hne|now apply M|].
  intros j Hj. destruct (match_here tok (skipn j s)) eqn:E; [|reflexivity].
  exfalso. apply (Hl j Hj). apply M; [lia|exact E].
Qed.

(** X7: for a tag without a backslash, when [i] is the leftmost
    position at which a non-empty token matches the snippet,
    case-insensitively, a substitution pass keeps what is before [i],
    wraps the characters of the snippet at [i] (in their own case) in
    the tag, and goes on after them. *)
Theorem re_sub_at_leftmost (tag tok s : str) (i : nat) :
  plain_tag tag = true -> tok <> [] -> first_match [tok] s i ->
  re_sub tag tok s
  = firstn i s
    ++ (lit "<" ++ tag ++ lit ">" ++ firstn (length tok) (skipn i s)
        ++ lit "</" ++ tag ++ lit ">")
    ++ re_sub tag tok (skipn (i + length tok) s).
Proof.
  intros _ Hne H. apply HighlightProps.first_match_leftmost in H.
  now apply re_sub_decompose.
Qed.

Lemma re_sub_at_leftmost_witness :
  re_sub (lit "mark") (lit "contract") (lit "A CONTRACT, a contract")
  = lit "A " ++ lit "<mark>CONTRACT</mark>"
    ++ re_sub (lit "mark") (lit "contract") (lit ", a contract").
Proof.
  refine (re_sub_at_leftmost (lit "mark") (lit "contract")
            (lit "A CONTRACT, a contract") 2 eq_refl ltac:(discriminate) _).
  apply HighlightProps.first_match_leftmost, HighlightProps.re_search_some.
  vm_compute. reflexivity.
Defined.

(** ** Queries that match nothing *)

Lemma lower_dot (a : ascii) : Ascii.eqb (uni_lower a) (uni_lower ".") = Ascii.eqb a ".".
Proof. destruct a as [[|] [|] [|] [|] [|] [|] [|] [|]]; reflexivity. Qed.

Lemma match_here_before_dots (tok q d : str) :
  dot_free tok = true -> Forall (fun c => c = "."%char) d ->
  match_here tok (q ++ d) = true -> match_here tok q = true.
Proof.
  intros Hd Fd. revert q. induction tok as [|a tok IH]; intro q; [reflexivity|].
  simpl in Hd. apply andb_prop in Hd as [Ha Ht]. destruct q as [|b q].
  - simpl. destruct d as [|x d]; [trivial|]. inversion Fd; subst.
    rewrite lower_dot. apply negb_true_iff in Ha. rewrite Ha. discriminate.
  - simpl. intro H. apply andb_prop in H as [-> H]. simpl. now apply IH.
Qed.

Lemma match_here_firstn (tok x : str) (m : nat) :
  match_here tok (firstn m x) = true -> match_here tok x = true.
Proof.
  revert m x. induction tok as [|a tok IH]; intros m x; [reflexivity|].
  destruct m as [|m], x as [|b x]; simpl; try discriminate.
  intro H. apply andb_prop in H as [-> H]. simpl. now apply IH with m.
Qed.

Lemma dots_suffix (k : nat) : Forall (fun c => c = "."%char) (skipn k ellipsis).
Proof.
  destruct k as [|[|[|k]]]; simpl; repeat constructor.
  rewrite skipn_nil. constructor.
Qed.

(** A token without a full stop that occurs nowhere in a text occurs
    nowhere in a prefix of the text followed by "...". *)
Lemma no_match_in_truncated (tok text : str) (n : nat) :
  dot_free tok = true ->
  (forall k, match_here tok (skipn k text) = false) ->
  forall k, match_here tok (skipn k (firstn n text ++ ellipsis)) = false.
Proof.
  intros Hd H k. destruct (match_here tok (skipn k (firstn n text ++ ellipsis))) eqn:E;
    [|reflexivity].
  rewrite skipn_app in E.
  apply match_here_before_dots in E; [|exact Hd|apply dots_suffix].
  rewrite skipn_firstn_comm in E. apply match_here_firstn in E.
  now rewrite H in E.
Qed.

Lemma wrap_tokens_unchanged (tag : str) (tokens : list str) (snippet : str) :
  Forall (fun tok => forall k, match_here tok (skipn k snippet) = false) tokens ->
  wrap_tokens tag tokens snippet = snippet.
Proof.
  unfold wrap_tokens. induction 1 as [|tok tokens H _ IH]; [reflexivity|].
  simpl. unfold re_sub. rewrite (sub_go_unchanged tag tok snippet H). exact IH.
Qed.

Lemma no_match_token (tokens : list str) (text tok : str) :
  no_match tokens text -> In tok tokens ->
  forall k, match_here tok (skipn k text) = false.
Proof.
  intros H Hin k.
  assert (O : forall i, ~ occurs_at tok text i).
  { intros i O. apply (H i). exists tok. now split. }
  apply match_here_occurs; [|exact O]. now apply occurs_nowhere_nonempty with text.
Qed.

(** X8: for a tag without a backslash and a query whose tokens hold no
    full stop and match the text nowhere, the highlighter returns the
    text itself when it has at most [max_length] characters, and else its
    first [max_length] characters followed by "...", with no tag. *)
Theorem highlight_no_match (text query : str) (max_length : Z) (tag : str) :
  text <> [] -> split query <> [] -> 0 <= max_length -> plain_tag tag = true ->
  nothing_matches (split query) text ->
  Forall (fun tok => dot_free tok = true) (split query) ->
  highlight_snippet (Some text) query max_length tag
  = Some (if max_length <? len text
          then firstn (Z.to_nat max_length) text ++ lit "..."
          else text).
Proof.
  intros Ht Hq Hm _ Hn Hd. apply HighlightProps.nothing_matches_no_match in Hn.
  unfold highlight_snippet.
  rewrite (HighlightProps.split_nonempty_query query Hq), HighlightProps.query_tokens_split.
  destruct text as [|c text]; [contradiction|]. cbn [truthy_opt_str truthy_str negb orb].
  destruct (split query) as [|tok toks] eqn:Es; [contradiction|].
  destruct (re_search (tok :: toks) (c :: text)) as [m|] eqn:Em.
  { exfalso. apply HighlightProps.re_search_some in Em as [Em _]. exact (Hn m Em). }
  change (0 >? 0) with false. cbv iota.
  pose proof (HighlightProps.slice_window (c :: text) 0 max_length ltac:(lia) Hm) as W.
  rewrite Z.add_0_l in W. change (skipn (Z.to_nat 0) (c :: text)) with (c :: text) in W.
  rewrite W. f_equal. change (lit "...") with ellipsis.
  destruct (Z.ltb_spec max_length (len (c :: text))) as [L|G].
  - apply wrap_tokens_unchanged. apply Forall_forall. intros t Hin.
    apply no_match_in_truncated.
    + now apply (proj1 (Forall_forall _ _) Hd).
    + now apply no_match_token with (tok :: toks).
  - rewrite firstn_all2 by (unfold len in G; lia).
    apply wrap_tokens_unchanged. apply Forall_forall. intros t Hin.
    now apply no_match_token with (tok :: toks).
Qed.

Lemma highlight_no_match_witness :
  highlight_snippet (Some (lit "Some unrelated text here.")) (lit "quantum law") 10
    default_tag
  = Some (lit "Some unrel...").
Proof.
  etransitivity.
  - apply (highlight_no_match (lit "Some unrelated text here.") (lit "quantum law") 10
             default_tag); [discriminate|vm_compute; discriminate|lia|reflexivity| |].
    + apply HighlightProps.nothing_matches_no_match, HighlightProps.re_search_none.
      vm_compute. reflexivity.
    + vm_compute. repeat constructor.
  - vm_compute. reflexivity.
Defined.

(** ** A query that matches *)

Lemma match_here_app (tok q r : str) :
  match_here tok q = true -> match_here tok (q ++ r) = true.
Proof.
  revert q. induction tok as [|a tok IH]; intro q; [reflexivity|].
  destruct q as [|b q]; simpl; [discriminate|].
  intro H. apply andb_prop in H as [-> H]. simpl. now apply IH.
Qed.

Lemma match_here_in_window (tok l : str) (a n : nat) :
  match_here tok (skipn a l) = true -> (a + length tok <= n)%nat ->
  match_here tok (skipn a (firstn n l)) = true.
Proof.
  intros H Hn. apply HighlightProps.match_here_spec in H as [L M].
  apply HighlightProps.match_here_spec. rewrite skipn_firstn_comm.
  rewrite length_firstn, firstn_firstn. split; [lia|].
  now rewrite Nat.min_l by lia.
Qed.

Lemma skipn_past_prefix (pre x : str) (a : nat) :
  skipn (length pre + a) (pre ++ x) = skipn a x.
Proof.
  rewrite skipn_app, skipn_all2 by lia. simpl. f_equal. lia.
Qed.

Lemma search_finds (tokens : list str) (s : str) (k : nat) :
  (k <= length s)%nat -> alt_here tokens (skipn k s) = true ->
  exists i, re_search tokens s = Some i.
Proof.
  intros Hk H. destruct (re_search tokens s) as [i|] eqn:E; [eauto|].
  rewrite (HighlightProps.search_from_none _ _ _ E k Hk) in H. discriminate.
Qed.

(** X9: for a tag without a backslash and a query of one token that
    matches the text somewhere, case-insensitively, and is not longer
    than two thirds of a [max_length] that is not negative, the
    highlighter returns a snippet that holds, wrapped in the tag, a text
    that is the token up to case. *)
Theorem highlight_marks_match (text query tok : str) (max_length : Z) (tag : str) (i : nat) :
  split query = [tok] -> token_at tok text i -> plain_tag tag = true ->
  0 <= max_length -> Z.of_nat (length tok) <= max_length - max_length / 3 ->
  exists r m,
    highlight_snippet (Some text) query max_length tag = Some r
    /\ same_text tok m
    /\ contains (lit "<" ++ tag ++ lit ">" ++ m ++ lit "</" ++ tag ++ lit ">") r.
Proof.
  intros Es Ho _ Hm Hlen. apply HighlightProps.token_at_occurs in Ho.
  assert (Hne : tok <> []).
  { pose proof (HighlightProps.split_go_tokens [] query eq_refl) as F.
    fold (split query) in F. rewrite Es in F. inversion F as [|? ? [N _] _]. exact N. }
  assert (Ht : text <> []).
  { destruct Ho as [L _]. destruct text; [|discriminate].
    destruct tok; [contradiction|simpl in L; lia]. }
  assert (Hq : split query <> []) by (rewrite Es; discriminate).
  unfold highlight_snippet.
  rewrite (HighlightProps.split_nonempty_query query Hq), HighlightProps.query_tokens_split, Es.
  destruct text as [|c text]; [contradiction|]. cbn [truthy_opt_str truthy_str negb orb].
  set (t := c :: text) in *.
  assert (Hs : some_token_at [tok] t i) by (exists tok; split; [now left|exact Ho]).
  destruct (search_finds [tok] t i (HighlightProps.some_token_at_bound _ _ _ Hs)
              (proj2 (HighlightProps.alt_here_spec [tok] t i
                        (HighlightProps.some_token_at_bound _ _ _ Hs)) Hs)) as [p0 Ep].
  rewrite Ep. apply HighlightProps.re_search_some in Ep as [Hp _].
  pose proof (HighlightProps.some_token_at_bound _ _ _ Hp) as Bp.
  apply (HighlightProps.alt_here_spec [tok] t p0 Bp) in Hp.
  unfold alt_here in Hp. simpl in Hp. rewrite orb_false_r in Hp.
  set (start := Z.max 0 (Z.of_nat p0 - max_length / 3)).
  rewrite (HighlightProps.slice_window t start max_length) by lia.
  set (pre := if start >? 0 then ellipsis else []).
  set (window := firstn (Z.to_nat max_length) (skipn (Z.to_nat start) t)).
  pose proof (Z.div_pos max_length 3 Hm ltac:(lia)) as Hthird.
  assert (Hw : match_here tok (skipn (p0 - Z.to_nat start) window) = true).
  { unfold window. apply match_here_in_window.
    - rewrite skipn_skipn. replace (p0 - Z.to_nat start + Z.to_nat start)%nat with p0
        by (unfold start; lia). exact Hp.
    - unfold start. lia. }
  assert (G : forall post, exists k,
               (k <= length ((pre ++ window) ++ post))%nat
               /\ alt_here [tok] (skipn k ((pre ++ window) ++ post)) = true).
  { intro post. exists (length pre + (p0 - Z.to_nat start))%nat.
    assert (Lw : (p0 - Z.to_nat start <= length window)%nat).
    { apply HighlightProps.match_here_spec in Hw as [L _].
      rewrite length_skipn in L. destruct tok; [contradiction|simpl in L; lia]. }
    split; [rewrite !length_app; lia|].
    rewrite <- app_assoc, skipn_past_prefix, skipn_app.
    unfold alt_here. simpl. rewrite orb_false_r. now apply match_here_app. }
  assert (R : forall snippet, (exists k, (k <= length snippet)%nat
                                         /\ alt_here [tok] (skipn k snippet) = true) ->
              exists m, same_text tok m
                        /\ contains (wrap tag m) (wrap_tokens tag [tok] snippet)).
  { intros snippet (k & Hk & Ha).
    destruct (search_finds [tok] snippet k Hk Ha) as [j Ej].
    apply HighlightProps.re_search_some in Ej.
    pose proof (re_sub_decompose tag tok snippet j Hne Ej) as D.
    exists (firstn (length tok) (skipn j snippet)). split.
    - destruct Ej as [(tk & [<-|[]] & _ & M) _].
      apply HighlightProps.same_text_lower. now symmetry.
    - unfold wrap_tokens. simpl. rewrite D. eexists _, _. reflexivity. }
  destruct (start + max_length <? len t).
  - destruct (R ((pre ++ window) ++ ellipsis) (G ellipsis)) as (m & M1 & M2).
    exists (wrap_tokens tag [tok] ((pre ++ window) ++ ellipsis)), m.
    repeat split; [|exact M1|exact M2].
    unfold pre. now destruct (start >? 0).
  - destruct (R ((pre ++ window) ++ []) (G [])) as (m & M1 & M2).
    rewrite app_nil_r in M2.
    exists (wrap_tokens tag [tok] (pre ++ window)), m.
    repeat split; [|exact M1|exact M2].
    unfold pre. now destruct (start >? 0).
Qed.

Lemma highlight_marks_match_witness :
  exists r m,
    highlight_snippet (Some (lit "CONTRACT law is complex.")) (lit "contract") 200
      (lit "mark") = Some r
    /\ same_text (lit "contract") m
    /\ contains (lit "<" ++ lit "mark" ++ lit ">" ++ m ++ lit "</" ++ lit "mark" ++ lit ">") r.
Proof.
  apply (highlight_marks_match (lit "CONTRACT law is complex.") (lit "contract")
           (lit "contract") 200 (lit "mark") 0).
  - vm_compute. reflexivity.
  - apply HighlightProps.token_at_occurs.
    split; [vm_compute; lia|vm_compute; reflexivity].
  - reflexivity.
  - lia.
  - vm_compute. discriminate.
Defined.

End HighlightMore.

(* ===================================================================== *)
(** * Further properties of the export service and of its endpoints *)
(* ===================================================================== *)

Module ExportMore.
Import Py ExportService Spec MoreSpec.

(** X10: for a limit that is not negative, the count that an export
    returns is the smallest of the total that a search with the same
    query and filters reports, the limit, and 10000. *)
Theorem export_count_against_search_total
        db query court year date_from date_to page per_page limit :
  0 <= limit -> per_page <> 0 ->
  exists resp,
    Search.search_cases db query court year date_from date_to page per_page = Ok resp
    /\ snd (export_cases_csv db query court year date_from date_to limit)
       = Z.min (SearchResponse.total resp) (Z.min limit 10000)
    /\ snd (export_cases_jsonl db query court year date_from date_to limit)
       = Z.min (SearchResponse.total resp) (Z.min limit 10000).
Proof.
  intros Hl Hp. eexists. split; [now apply SearchProps.search_cases_returns|].
  cbn [SearchResponse.total]. rewrite SearchProps.where_filter.
  rewrite ExportProps.export_cases_csv_spec. unfold export_cases_jsonl. cbn [snd].
  rewrite ExportProps.fetch_export_rows_spec by exact Hl.
  rewrite SearchProps.export_conditions_eq, length_firstn.
  unfold MAX_EXPORT_ROWS. split; lia.
Qed.

Lemma export_count_against_search_total_witness :
  snd (export_cases_csv Samples.sample_db (lit "smith") None None None None 2) = 2
  /\ snd (export_cases_csv Samples.sample_db (lit "smith") None None None None 50) = 3.
Proof.
  split.
  - destruct (export_count_against_search_total Samples.sample_db (lit "smith")
                None None None None 1 20 2 ltac:(lia) ltac:(lia)) as (resp & E & C & _).
    rewrite C. rewrite SearchProps.search_cases_returns in E by lia.
    injection E as <-. vm_compute. reflexivity.
  - destruct (export_count_against_search_total Samples.sample_db (lit "smith")
                None None None None 1 20 50 ltac:(lia) ltac:(lia)) as (resp & E & C & _).
    rewrite C. rewrite SearchProps.search_cases_returns in E by lia.
    injection E as <-. vm_compute. reflexivity.
Defined.

Lemma filter_none {A} (f : A -> bool) (l : list A) :
  (forall x, In x l -> f x = false) -> filter f l = [].
Proof.
  induction l as [|x l IH]; intro H; [reflexivity|]. simpl.
  rewrite (H x (or_introl eq_refl)). apply IH. intros y Hy. apply H. now right.
Qed.

(** X11: when no record satisfies the conditions, the CSV export is the
    header line alone and the JSONL export is the empty text, both with
    the count 0, whatever the limit. *)
Theorem export_of_no_match db query court year date_from date_to limit :
  (forall r, In r db ->
             holds_all (conditions query court year date_from date_to) r = false) ->
  export_cases_csv db query court year date_from date_to limit
  = (lit "id,title,citation,court,date,year,judges,headnote" ++ crlf, 0)
  /\ export_cases_jsonl db query court year date_from date_to limit = ([], 0).
Proof.
  intro H.
  assert (F : _fetch_export_rows db query court year date_from date_to limit = []).
  { unfold _fetch_export_rows. rewrite SearchProps.where_filter, (filter_none _ _ H).
    unfold Sql.limit. destruct (_ <? 0); [reflexivity|apply firstn_nil]. }
  rewrite ExportProps.export_cases_csv_spec. unfold export_cases_jsonl. cbv zeta.
  rewrite F. split; reflexivity.
Qed.

Lemma export_of_no_match_witness :
  export_cases_csv Samples.sample_db (lit "xyznonexistent") None None None None 1000
  = (lit "id,title,citation,court,date,year,judges,headnote" ++ crlf, 0)
  /\ export_cases_jsonl Samples.sample_db (lit "xyznonexistent") None None None None 1000
     = ([], 0).
Proof.
  apply export_of_no_match. intros r Hr.
  repeat (destruct Hr as [<-|Hr]; [vm_compute; reflexivity|]). destruct Hr.
Defined.

Lemma string_of_uint_nonempty (d : Decimal.uint) : NilZero.string_of_uint d <> ""%string.
Proof. destruct d; discriminate. Qed.

Lemma str_of_int_nonempty (z : Z) : str_of_int z <> [].
Proof.
  unfold str_of_int, NilZero.string_of_int. destruct (Z.to_int z) as [d|d].
  - pose proof (string_of_uint_nonempty d) as H.
    destruct (NilZero.string_of_uint d); [contradiction|discriminate].
  - discriminate.
Qed.

(** X13: in a CSV record the year field is empty exactly when the year
    of the case is NULL or 0, while the JSONL line writes [null] for the
    first and a number for the second. *)
Theorem csv_year_field (c : Case.t) :
  (nth 5 (csv_record c) [] = [] <-> Case.year c = None \/ Case.year c = Some 0)
  /\ (json_opt_int (Case.year c) = lit "null" <-> Case.year c = None).
Proof.
  unfold csv_record. cbn [nth]. unfold year_or_empty, json_opt_int, truthy_int.
  destruct (Case.year c) as [z|].
  - destruct (Z.eqb_spec z 0) as [->|N]; simpl.
    + split; split; try discriminate; auto.
    + split; split; try discriminate.
      * intro H. now apply str_of_int_nonempty in H.
      * intros [H|H]; [discriminate|]. injection H as H. contradiction.
      * intro H. exfalso. revert H. unfold str_of_int, NilZero.string_of_int.
        destruct (Z.to_int z) as [d|d]; [|discriminate].
        destruct d; simpl; discriminate.
  - split; split; auto.
Qed.

Lemma csv_year_field_witness :
  nth 5 (csv_record
           {| Case.id := lit "case_006"; Case.title := lit "Undated";
              Case.citation := None; Case.court := None; Case.date := None;
              Case.year := Some 0; Case.judges := None; Case.headnote := None;
              Case.text := None |}) [] = [].
Proof.
  apply (proj2 (proj1 (csv_year_field _))). right. reflexivity.
Defined.

End ExportMore.

(* ===================================================================== *)
(** * Properties of the export endpoints and of the API key check *)
(* ===================================================================== *)

Module EndpointProps.
Import Py Endpoints Spec MoreSpec.

(** X14: for a limit within 1..10000, the [X-Export-Count] header of
    the CSV and JSONL export responses is the decimal text of the number
    of data records of the CSV body, respectively of lines of the JSONL
    body; this number is at most the limit, and the file name of the
    attachment carries it. *)
Theorem export_count_header db q court year date_from date_to limit :
  1 <= limit <= 10000 ->
  exists n : nat,
    Z.of_nat n <= limit
    /\ length (csv_records (content (export_csv db q court year date_from date_to limit)))
       = S n
    /\ header (lit "X-Export-Count")
         (headers (export_csv db q court year date_from date_to limit))
       = Some (str_of_int (Z.of_nat n))
    /\ header (lit "Content-Disposition")
         (headers (export_csv db q court year date_from date_to limit))
       = Some (lit "attachment; filename=legal-export-" ++ str_of_int (Z.of_nat n)
               ++ lit "-cases.csv")
    /\ length (lines (content (export_jsonl db q court year date_from date_to limit))) = n
    /\ header (lit "X-Export-Count")
         (headers (export_jsonl db q court year date_from date_to limit))
       = Some (str_of_int (Z.of_nat n)).
Proof.
  intro H.
  exists (length (ExportService._fetch_export_rows db q court year date_from date_to limit)).
  split.
  { unfold ExportService._fetch_export_rows. unfold ExportService.MAX_EXPORT_ROWS.
    pose proof (ExportProps.limit_length (Z.min limit 10000)
                  (Sql.where_ (ExportService.conditions q court year date_from date_to) db)
                  ltac:(lia)). lia. }
  pose proof (ExportProps.csv_records_export db q court year date_from date_to limit) as C.
  pose proof (ExportProps.lines_export db q court year date_from date_to limit) as L.
  unfold export_csv, export_jsonl.
  rewrite ExportProps.export_cases_csv_spec in *. cbv zeta in *.
  unfold ExportService.export_cases_jsonl in *. cbv zeta in *.
  cbn [content headers fst] in *. rewrite C, L.
  cbn [length]. rewrite !length_map. repeat split; reflexivity.
Qed.

Lemma export_count_header_witness :
  header (lit "X-Export-Count")
    (headers (export_csv Samples.sample_db (lit "smith") None None None None 2))
  = Some (lit "2").
Proof.
  destruct (export_count_header Samples.sample_db (lit "smith") None None None None 2
              ltac:(lia)) as (n & _ & Hn & Hh & _).
  rewrite Hh. do 2 f_equal.
  assert (E : S n = 3%nat) by (rewrite <- Hn; vm_compute; reflexivity).
  injection E as ->. reflexivity.
Defined.

(** X15: with the check disabled every request passes; with the check
    enabled a request passes exactly when it carries a key that is not
    empty and equals the configured key, and is refused with status 403
    otherwise, so that with an empty configured key (the default) every
    request is refused. *)
Theorem verify_api_key_spec (st : KeySettings) (key : option str) :
  (api_key_enabled st = false -> verify_api_key st key = Pass true)
  /\ (api_key_enabled st = true ->
      (verify_api_key st key = Pass true
       <-> exists k, key = Some k /\ k <> [] /\ k = api_key st)
      /\ (verify_api_key st key = Pass true
          \/ verify_api_key st key = HTTPException 403 (lit "Invalid API key"))
      /\ (api_key st = [] ->
          verify_api_key st key = HTTPException 403 (lit "Invalid API key"))).
Proof.
  unfold verify_api_key. split; intro E; rewrite E; [reflexivity|]. cbn [negb].
  destruct key as [[|c k]|]; cbn [truthy_opt_str truthy_str negb orb].
  - repeat split; auto; try discriminate. intros (k & [= <-] & N & _). contradiction.
  - destruct (Stats.str_eqb (c :: k) (api_key st)) eqn:Q; cbn [negb].
    + apply StatsProps.str_eqb_eq in Q. repeat split; auto.
      * intros _. exists (c :: k). repeat split; [discriminate|exact Q].
      * intro A. rewrite A in Q. discriminate.
    + repeat split; auto; try discriminate.
      intros (k' & [= <-] & _ & A). apply StatsProps.str_eqb_eq in A.
      rewrite A in Q. discriminate.
  - repeat split; auto; try discriminate. intros (k & [=] & _).
Qed.

Lemma verify_api_key_spec_witness :
  verify_api_key {| api_key_enabled := true; api_key := [] |} (Some (lit "secret"))
  = HTTPException 403 (lit "Invalid API key")
  /\ verify_api_key key_settings None = Pass true.
Proof.
  split.
  - exact (proj2 (proj2 (proj2 (verify_api_key_spec
             {| api_key_enabled := true; api_key := [] |} (Some (lit "secret"))) eq_refl))
             eq_refl).
  - exact (proj1 (verify_api_key_spec key_settings None) eq_refl).
Defined.

End EndpointProps.

(* ===================================================================== *)
(** * Further properties of the statistics *)
(* ===================================================================== *)

Module StatsMore.
Import Py Stats Spec MoreSpec.

(** ** Generic facts on grouping *)

Section Grouping.
Variable K : Type.
Variable eqb : K -> K -> bool.
Hypothesis eqb_eq : forall a b, eqb a b = true <-> a = b.
Variable R : Type.
Variable proj : R -> K.

Lemma eqb_refl (a : K) : eqb a a = true.
Proof. now apply eqb_eq. Qed.

Lemma indicator_sum (x : K) (ks : list K) :
  NoDup ks ->
  sum (map (fun k => if eqb k x then 1 else 0) ks) = if existsb (fun k => eqb k x) ks then 1 else 0.
Proof.
  induction 1 as [|k ks Hk _ IH]; [reflexivity|]. simpl. rewrite IH.
  destruct (eqb k x) eqn:E; [|reflexivity]. apply eqb_eq in E. subst k.
  destruct (existsb (fun k => eqb k x) ks) eqn:X; [|reflexivity].
  apply existsb_exists in X as (k & Hin & E). apply eqb_eq in E. subst k. contradiction.
Qed.

Lemma sum_map_add {A} (f g : A -> Z) (l : list A) :
  sum (map (fun a => f a + g a) l) = sum (map f l) + sum (map g l).
Proof. induction l as [|a l IH]; simpl; [reflexivity|]. rewrite IH. lia. Qed.

(** The sizes of the groups of distinct keys that cover the rows add up
    to the number of rows. *)
Lemma group_sizes_sum (rows : list R) (ks : list K) :
  NoDup ks -> (forall r, In r rows -> In (proj r) ks) ->
  sum (map (fun k => Z.of_nat (length (filter (fun r => eqb k (proj r)) rows))) ks)
  = Z.of_nat (length rows).
Proof.
  intros Hnd. induction rows as [|r rows IH]; intro Hc.
  - simpl. induction ks as [|k ks IHk]; [reflexivity|]. simpl.
    inversion Hnd; subst. now rewrite IHk.
  - rewrite (map_ext _ (fun k => (if eqb k (proj r) then 1 else 0)
                                 + Z.of_nat (length (filter (fun r => eqb k (proj r)) rows)))).
    + rewrite sum_map_add, indicator_sum by exact Hnd.
      rewrite IH by (intros r' Hr'; apply Hc; now right).
      assert (X : existsb (fun k => eqb k (proj r)) ks = true).
      { apply existsb_exists. exists (proj r). split; [apply Hc; now left|apply eqb_refl]. }
      rewrite X. simpl length. lia.
    + intro k. simpl. destruct (eqb k (proj r)); simpl length; lia.
Qed.

(** A group of a key that some row has is not empty. *)
Lemma group_nonempty (rows : list R) (k : K) :
  In k (map proj rows) -> 1 <= Z.of_nat (length (filter (fun r => eqb k (proj r)) rows)).
Proof.
  intro H. apply in_map_iff in H as (r & <- & Hr).
  assert (I : In r (filter (fun r' => eqb (proj r) (proj r')) rows)).
  { apply filter_In. split; [exact Hr|apply eqb_refl]. }
  destruct (filter _ rows); [destruct I|simpl; lia].
Qed.

End Grouping.

Lemma nodup_map_inj {A B} (f : A -> B) (l : list A) (x y : A) :
  NoDup (map f l) -> In x l -> In y l -> f x = f y -> x = y.
Proof.
  induction l as [|a l IH]; [intros _ []|]. simpl. intros N Hx Hy E.
  inversion N as [|? ? Na Nl]; subst.
  destruct Hx as [->|Hx], Hy as [->|Hy]; auto.
  - exfalso. apply Na. rewrite E. now apply in_map.
  - exfalso. apply Na. rewrite <- E. now apply in_map.
Qed.

(** ** Court statistics *)

Lemma insert_desc_sum (r : option str * Z) (rows : list (option str * Z)) :
  sum (map snd (insert_desc r rows)) = snd r + sum (map snd rows).
Proof.
  induction rows as [|r' rows IH]; [reflexivity|]. simpl.
  destruct (snd r' <=? snd r); simpl; [reflexivity|]. rewrite IH. lia.
Qed.

Lemma order_sum (rows : list (option str * Z)) :
  sum (map snd (order_by_count_desc rows)) = sum (map snd rows).
Proof.
  unfold order_by_count_desc. induction rows as [|r rows IH]; [reflexivity|].
  simpl. now rewrite insert_desc_sum, IH.
Qed.

Lemma court_counts (db : list Case.t) :
  map count (get_court_stats db) = map snd (order_by_count_desc (group_by_court db)).
Proof. unfold get_court_stats. now rewrite map_map. Qed.

(** X16: the counts of the court statistics add up to the number of
    records of the store, and each of them is at least 1. *)
Theorem court_counts_total (db : list Case.t) :
  sum (map count (get_court_stats db)) = Z.of_nat (length db)
  /\ Forall (fun e => 1 <= count e) (get_court_stats db).
Proof.
  split.
  - rewrite court_counts, order_sum. unfold group_by_court. rewrite map_map. simpl.
    apply (group_sizes_sum _ key_eqb StatsProps.key_eqb_eq _ Case.court).
    + apply StatsProps.distinct_nodup.
    + intros r Hr. apply StatsProps.distinct_in. now apply in_map.
  - apply Forall_forall. intros e He. unfold get_court_stats in He.
    apply in_map_iff in He as (row & <- & Hrow).
    apply (proj1 (StatsProps.order_by_count_desc_in _ _)) in Hrow.
    unfold group_by_court in Hrow.
    apply in_map_iff in Hrow as (k & <- & Hk).
    apply (proj1 (StatsProps.distinct_in _ _)) in Hk.
    cbn [count snd]. now apply (group_nonempty _ key_eqb StatsProps.key_eqb_eq).
Qed.

Lemma insert_desc_sorted (r : option str * Z) (rows : list (option str * Z)) :
  counts_descending (map snd rows) -> counts_descending (map snd (insert_desc r rows)).
Proof.
  induction rows as [|r' rows IH]; simpl.
  - intros _. split; [intros c' []|exact I].
  - intros [H1 H2]. destruct (Z.leb_spec (snd r') (snd r)) as [L|G]; simpl.
    + split; [|split; assumption].
      intros c' [<-|Hc]; [exact L|]. specialize (H1 c' Hc). lia.
    + split; [|now apply IH].
      intros c' Hc. apply in_map_iff in Hc as (x & <- & Hx).
      apply StatsProps.insert_desc_in in Hx as [->|Hx]; [lia|].
      apply H1. now apply in_map.
Qed.

(** X17: the court statistics are in the order of decreasing counts. *)
Theorem court_stats_descending (db : list Case.t) :
  counts_descending (map count (get_court_stats db)).
Proof.
  rewrite court_counts. unfold order_by_count_desc.
  induction (group_by_court db) as [|r rows IH]; [exact I|].
  simpl. now apply insert_desc_sorted.
Qed.

(** X18: the names of the courts list need not be distinct: when one
    record has a NULL court and another an empty court, "Unknown" is
    listed for each of the two groups. *)
Theorem list_courts_duplicates (db : list Case.t) (r1 r2 : Case.t) :
  In r1 db -> In r2 db -> Case.court r1 = None -> Case.court r2 = Some [] ->
  ~ NoDup (list_courts db).
Proof.
  intros H1 H2 E1 E2 N. unfold list_courts, get_court_stats in N.
  rewrite map_map in N. cbn [court] in N.
  assert (G : forall k, In k (map Case.court db) ->
                        In (k, group_count db k) (order_by_count_desc (group_by_court db))).
  { intros k Hk. apply StatsProps.order_by_count_desc_in. unfold group_by_court.
    apply (in_map (fun k => (k, group_count db k))). now apply StatsProps.distinct_in. }
  pose proof (G None ltac:(rewrite <- E1; now apply in_map)) as G1.
  pose proof (G (Some []) ltac:(rewrite <- E2; now apply in_map)) as G2.
  pose proof (nodup_map_inj _ _ _ _ N G1 G2 eq_refl) as E. discriminate.
Qed.

Lemma list_courts_duplicates_witness :
  ~ NoDup (list_courts
             [Samples.row_without_court;
              {| Case.id := lit "case_005"; Case.title := lit "Roe v. Doe";
                 Case.citation := None; Case.court := Some []; Case.date := None;
                 Case.year := None; Case.judges := None; Case.headnote := None;
                 Case.text := None |}]).
Proof.
  eapply list_courts_duplicates;
    [left; reflexivity|right; left; reflexivity|reflexivity|reflexivity].
Defined.

(** ** Year statistics *)

Import StatsService.

Lemma year_key_eqb_eq (a b : option Z) : year_key_eqb a b = true <-> a = b.
Proof.
  destruct a as [x|], b as [y|]; simpl;
    try (split; [discriminate|discriminate]); try (split; reflexivity).
  rewrite Z.eqb_eq. split; [now intros ->|now intros [=]].
Qed.

Lemma distinct_years_in (keys : list (option Z)) (k : option Z) :
  In k (distinct_years keys) <-> In k keys.
Proof.
  induction keys as [|k0 keys IH]; simpl; [reflexivity|].
  rewrite filter_In, IH. split.
  - intros [H|[H _]]; auto.
  - intros [H|H]; [now left|].
    destruct (year_key_eqb k0 k) eqn:E.
    + left. now apply year_key_eqb_eq.
    + right. now split.
Qed.

Lemma distinct_years_nodup (keys : list (option Z)) : NoDup (distinct_years keys).
Proof.
  induction keys as [|k0 keys IH]; simpl; constructor.
  - intro H. apply filter_In in H as [_ H].
    rewrite (proj2 (year_key_eqb_eq k0 k0) eq_refl) in H. discriminate.
  - now apply NoDup_filter.
Qed.

Lemma selected_years (db : list Case.t) :
  Sql.where_ [fun c => isnot_null (Case.year c)] db
  = filter (fun c => negb (is_null (Case.year c))) db.
Proof.
  rewrite SearchProps.where_filter. apply filter_ext. intro c.
  unfold holds_all. simpl. now destruct (Case.year c).
Qed.

Lemma insert_year_desc_in (r x : option Z * Z) (rows : list (option Z * Z)) :
  In x (insert_year_desc r rows) <-> x = r \/ In x rows.
Proof.
  induction rows as [|r' rows IH]; simpl.
  - intuition congruence.
  - destruct (year_key_ltb (fst r) (fst r')); simpl; [|intuition congruence].
    rewrite IH. intuition congruence.
Qed.

Lemma order_by_year_desc_in (x : option Z * Z) (rows : list (option Z * Z)) :
  In x (order_by_year_desc rows) <-> In x rows.
Proof.
  unfold order_by_year_desc. induction rows as [|r rows IH]; simpl; [reflexivity|].
  rewrite insert_year_desc_in, IH. intuition congruence.
Qed.

Lemma in_some_values {A} (a : A) (column : list (option A)) :
  In a (some_values column) <-> In (Some a) column.
Proof.
  unfold some_values. rewrite in_flat_map. split.
  - intros ([b|] & Hin & H); simpl in H; [|destruct H].
    destruct H as [<-|[]]. exact Hin.
  - intro H. exists (Some a). split; [exact H|now left].
Qed.

Lemma insert_year_sorted (y n : Z) (rows : list (option Z * Z)) :
  (forall k, In k (map fst rows) -> k <> None) ->
  ~ In (Some y) (map fst rows) ->
  strictly_descending (some_values (map fst rows)) ->
  strictly_descending (some_values (map fst (insert_year_desc (Some y, n) rows))).
Proof.
  induction rows as [|[k' n'] rows IH]; simpl.
  - intros _ _ _. split; [intros z []|exact I].
  - intros Hk Hn Hs.
    destruct k' as [y'|]; [|exfalso; apply (Hk None); [now left|reflexivity]].
    simpl in *. destruct Hs as [H1 H2].
    assert (Hk' : forall k, In k (map fst rows) -> k <> None)
      by (intros k Hin; apply Hk; now right).
    destruct (Z.ltb_spec y y') as [L|G]; simpl.
    + split; [|apply IH; [exact Hk'|tauto|exact H2]].
      intros z Hz. apply in_some_values, in_map_iff in Hz as (x & Ex & Hx).
      apply insert_year_desc_in in Hx as [->|Hx]; [simpl in Ex; congruence|].
      apply H1, in_some_values. rewrite <- Ex. now apply in_map.
    + assert (y' < y) by (assert (y <> y') by (intros ->; tauto); lia).
      split; [|split; assumption].
      intros z [<-|Hz]; [assumption|]. specialize (H1 z Hz). lia.
Qed.

Lemma order_year_sorted (rows : list (option Z * Z)) :
  NoDup (map fst rows) -> (forall k, In k (map fst rows) -> k <> None) ->
  strictly_descending (some_values (map fst (order_by_year_desc rows))).
Proof.
  unfold order_by_year_desc. induction rows as [|[k n] rows IH]; [intros; exact I|].
  simpl. intros N Hk. inversion N as [|? ? Nk Nr]; subst.
  destruct k as [y|]; [|exfalso; apply (Hk None); [now left|reflexivity]].
  assert (Hk' : forall k, In k (map fst rows) -> k <> None)
    by (intros k Hin; apply Hk; now right).
  assert (P : forall k, In k (map fst (fold_right insert_year_desc [] rows)) ->
                        In k (map fst rows)).
  { intros k H. apply in_map_iff in H as (x & Ex & Hx).
    apply (proj1 (order_by_year_desc_in x rows)) in Hx. rewrite <- Ex. now apply in_map. }
  apply insert_year_sorted.
  - intros k Hin. apply Hk', P, Hin.
  - intro H. apply Nk, P, H.
  - now apply IH.
Qed.

Lemma insert_year_sum (r : option Z * Z) (rows : list (option Z * Z)) :
  sum (map snd (insert_year_desc r rows)) = snd r + sum (map snd rows).
Proof.
  induction rows as [|r' rows IH]; [reflexivity|]. simpl.
  destruct (year_key_ltb (fst r) (fst r')); simpl; [|reflexivity]. rewrite IH. lia.
Qed.

Lemma order_year_sum (rows : list (option Z * Z)) :
  sum (map snd (order_by_year_desc rows)) = sum (map snd rows).
Proof.
  unfold order_by_year_desc. induction rows as [|r rows IH]; [reflexivity|].
  simpl. now rewrite insert_year_sum, IH.
Qed.

Lemma group_by_year_keys (rows : list Case.t) :
  map fst (group_by_year rows) = distinct_years (map Case.year rows).
Proof. unfold group_by_year. rewrite map_map. simpl. apply map_id. Qed.

(** X19: no entry of the year statistics has a null year; the years
    of the entries are strictly decreasing, so that each year is listed
    once; and the counts add up to the number of records that have a
    year. *)
Theorem year_stats_spec (db : list Case.t) :
  Forall (fun e => year e <> None) (get_year_stats db)
  /\ strictly_descending (some_values (map year (get_year_stats db)))
  /\ sum (map count (get_year_stats db))
     = Z.of_nat (length (filter (fun c => negb (is_null (Case.year c))) db)).
Proof.
  unfold get_year_stats. rewrite selected_years.
  set (rows := filter _ db).
  assert (K : forall k, In k (map fst (group_by_year rows)) -> k <> None).
  { intros k Hk. rewrite group_by_year_keys in Hk.
    apply (proj1 (distinct_years_in _ _)) in Hk.
    apply in_map_iff in Hk as (c & <- & Hc). apply filter_In in Hc as [_ Hc].
    now destruct (Case.year c). }
  split; [|split].
  - apply Forall_forall. intros e He. apply in_map_iff in He as (row & <- & Hrow).
    apply (proj1 (order_by_year_desc_in _ _)) in Hrow. cbn [year].
    apply K. now apply in_map.
  - rewrite map_map. cbn [year].
    change (map (fun x => fst x) ?l) with (map fst l).
    apply order_year_sorted; [|exact K].
    rewrite group_by_year_keys. apply distinct_years_nodup.
  - rewrite map_map. cbn [count].
    change (map (fun x => snd x) ?l) with (map snd l).
    rewrite order_year_sum. unfold group_by_year. rewrite map_map. simpl.
    apply (group_sizes_sum _ year_key_eqb year_key_eqb_eq _ Case.year).
    + apply distinct_years_nodup.
    + intros r Hr. apply distinct_years_in. now apply in_map.
Qed.

(** The year statistics of the sample rows. *)
Example year_stats_sample :
  get_year_stats Samples.sample_db
  = [ {| year := Some 2024; count := 2 |}; {| year := Some 2023; count := 1 |} ].
Proof. vm_compute. reflexivity. Qed.

(** ** Overall statistics *)

Lemma sql_min_spec (column : list (option Z)) :
  match sql_min column with
  | Some m => In (Some m) column /\ forall y, In (Some y) column -> m <= y
  | None => forall y, ~ In (Some y) column
  end.
Proof.
  induction column as [|[x|] column IH]; simpl.
  - intros y [].
  - destruct (sql_min column) as [m|].
    + destruct IH as [I1 I2]. split.
      * destruct (Z.min_spec x m) as [[_ ->]|[_ ->]]; auto.
      * intros y [[= <-]|H]; [lia|]. specialize (I2 y H). lia.
    + split; [now left|]. intros y [[= <-]|H]; [lia|]. now apply IH in H.
  - destruct (sql_min column) as [m|].
    + destruct IH as [I1 I2]. split; [now right|].
      intros y [H|H]; [discriminate|now apply I2].
    + intros y [H|H]; [discriminate|now apply IH in H].
Qed.

Lemma sql_max_spec (column : list (option Z)) :
  match sql_max column with
  | Some m => In (Some m) column /\ forall y, In (Some y) column -> y <= m
  | None => forall y, ~ In (Some y) column
  end.
Proof.
  induction column as [|[x|] column IH]; simpl.
  - intros y [].
  - destruct (sql_max column) as [m|].
    + destruct IH as [I1 I2]. split.
      * destruct (Z.max_spec x m) as [[_ ->]|[_ ->]]; auto.
      * intros y [[= <-]|H]; [lia|]. specialize (I2 y H). lia.
    + split; [now left|]. intros y [[= <-]|H]; [lia|]. now apply IH in H.
  - destruct (sql_max column) as [m|].
    + destruct IH as [I1 I2]. split; [now right|].
      intros y [H|H]; [discriminate|now apply I2].
    + intros y [H|H]; [discriminate|now apply IH in H].
Qed.

(** X20: when the overall statistics give a year range, its bounds are
    years of records, neither is 0, and every year of a record lies
    between them; the range is missing when no record has a year, and
    also when the smallest year is 0. *)
Theorem year_range_spec (avg_length : option Q) (db : list Case.t) :
  (forall lo hi,
      year_range (get_statistics avg_length db) = Some (lo, hi) ->
      lo <> 0 /\ hi <> 0
      /\ In (Some lo) (map Case.year db) /\ In (Some hi) (map Case.year db)
      /\ forall y, In (Some y) (map Case.year db) -> lo <= y <= hi)
  /\ ((forall y, ~ In (Some y) (map Case.year db)) ->
      year_range (get_statistics avg_length db) = None)
  /\ (In (Some 0) (map Case.year db) ->
      (forall y, In (Some y) (map Case.year db) -> 0 <= y) ->
      year_range (get_statistics avg_length db) = None).
Proof.
  unfold get_statistics. cbn [year_range].
  pose proof (sql_min_spec (map Case.year db)) as Hmin.
  pose proof (sql_max_spec (map Case.year db)) as Hmax.
  unfold truthy_opt_int, truthy_int.
  destruct (sql_min (map Case.year db)) as [lo|]; cbn [andb].
  - destruct Hmin as [M1 M2].
    destruct (sql_max (map Case.year db)) as [hi|].
    + destruct Hmax as [X1 X2].
      destruct (Z.eqb_spec lo 0) as [L0|L0]; cbn [negb andb].
      * split; [intros a b; discriminate|]. split; reflexivity.
      * destruct (Z.eqb_spec hi 0) as [H0|H0]; cbn [negb].
        -- split; [intros a b; discriminate|]. split; reflexivity.
        -- split; [|split].
           ++ intros a b [= <- <-].
              split; [exact L0|]. split; [exact H0|]. split; [exact M1|].
              split; [exact X1|]. intros y Hy. split; [now apply M2|now apply X2].
           ++ intro Hn. exfalso. exact (Hn lo M1).
           ++ intros Hz Hp. exfalso. specialize (M2 0 Hz). specialize (Hp lo M1). lia.
    + exfalso. exact (Hmax lo M1).
  - split; [intros a b; discriminate|]. split; reflexivity.
Qed.

Lemma year_range_spec_witness :
  year_range (get_statistics None
                [Samples.make_case_row;
                 {| Case.id := lit "case_006"; Case.title := lit "Undated";
                    Case.citation := None; Case.court := None; Case.date := None;
                    Case.year := Some 0; Case.judges := None; Case.headnote := None;
                    Case.text := None |}]) = None.
Proof.
  apply (proj2 (proj2 (year_range_spec None _))).
  - right. left. reflexivity.
  - intros y [[= <-]|[[= <-]|[]]]; lia.
Defined.

Lemma insert_desc_length (r : option str * Z) (rows : list (option str * Z)) :
  length (insert_desc r rows) = S (length rows).
Proof.
  induction rows as [|r' rows IH]; [reflexivity|]. simpl.
  destruct (snd r' <=? snd r); simpl; [reflexivity|]. now rewrite IH.
Qed.

Lemma order_length (rows : list (option str * Z)) :
  length (order_by_count_desc rows) = length rows.
Proof.
  unfold order_by_count_desc. induction rows as [|r rows IH]; [reflexivity|].
  simpl. now rewrite insert_desc_length, IH.
Qed.

Lemma null_once (keys : list (option str)) :
  NoDup keys ->
  (length keys
   = length (filter (fun k => match k with Some _ => true | None => false end) keys)
     + (if existsb is_null keys then 1 else 0))%nat.
Proof.
  induction 1 as [|k keys Hk _ IH]; [reflexivity|]. simpl.
  destruct k as [s|]; simpl.
  - rewrite IH. reflexivity.
  - rewrite IH. destruct (existsb is_null keys) eqn:E; [|lia].
    exfalso. apply Hk. apply existsb_exists in E as ([x|] & Hin & Hx);
      [discriminate|exact Hin].
Qed.

Lemma exists_null_court (db : list Case.t) :
  existsb is_null (distinct (map Case.court db))
  = existsb (fun c => is_null (Case.court c)) db.
Proof.
  apply eq_true_iff_eq. rewrite !existsb_exists. split.
  - intros (k & Hk & Hn). apply (proj1 (StatsProps.distinct_in _ _)) in Hk.
    apply in_map_iff in Hk as (c & <- & Hc). eauto.
  - intros (c & Hc & Hn). exists (Case.court c). split; [|exact Hn].
    apply StatsProps.distinct_in. now apply in_map.
Qed.

(** X21: the court statistics have one entry for each distinct court
    that [total_courts] counts, and one more, the entry of the NULL
    group, when some record has a null court. *)
Theorem court_entries_against_total_courts (avg_length : option Q) (db : list Case.t) :
  Z.of_nat (length (get_court_stats db))
  = total_courts (get_statistics avg_length db)
    + (if existsb (fun c => is_null (Case.court c)) db then 1 else 0).
Proof.
  unfold get_court_stats, get_statistics. cbn [total_courts].
  rewrite length_map, order_length. unfold group_by_court, count_distinct_courts.
  rewrite length_map, (null_once _ (StatsProps.distinct_nodup (map Case.court db))).
  rewrite exists_null_court. destruct (existsb _ db); lia.
Qed.

End StatsMore.

(* ===================================================================== *)
(** * Properties of the logging filter *)
(* ===================================================================== *)

Module MiddlewareProps.
Import Middleware.

Section Filter.
Variable V : Type.
Variable dash : V.

Lemma step_keeps (rec : log_record V) (key k : string) (v : V) :
  getattr rec k = Some v -> getattr (ensure dash rec key) k = Some v.
Proof.
  intro H. unfold ensure, hasattr. destruct (getattr rec key) eqn:E; [exact H|].
  simpl. destruct (String.eqb_spec key k) as [->|_]; [congruence|exact H].
Qed.

Lemma step_adds (rec : log_record V) (key k : string) :
  getattr (ensure dash rec key) k
  = match getattr rec k with
    | Some v => Some v
    | None => if String.eqb key k then Some dash else None
    end.
Proof.
  unfold ensure, hasattr. destruct (getattr rec key) eqn:E; simpl.
  - destruct (getattr rec k) eqn:F; [reflexivity|].
    destruct (String.eqb_spec key k) as [->|_]; [congruence|reflexivity].
  - destruct (String.eqb_spec key k) as [->|_]; [now rewrite E|].
    now destruct (getattr rec k).
Qed.

Lemma fold_step (keys : list string) (rec : log_record V) (k : string) :
  getattr (fold_left (ensure dash) keys rec) k
  = match getattr rec k with
    | Some v => Some v
    | None => if existsb (fun key => String.eqb key k) keys then Some dash else None
    end.
Proof.
  revert rec. induction keys as [|key keys IH]; intro rec; simpl.
  - now destruct (getattr rec k).
  - rewrite IH, step_adds. destruct (getattr rec k); [reflexivity|].
    destruct (String.eqb key k); simpl; [|reflexivity].
    now destruct (existsb _ keys).
Qed.

(** X22: the logging filter never drops a record; after it, an
    attribute that the record had keeps its value, each of the seven
    extra fields that was missing is ["-"], and no other attribute is
    added. *)
Theorem filter_spec (record : log_record V) (k : string) :
  fst (filter dash record) = true
  /\ getattr (snd (filter dash record)) k
     = match getattr record k with
       | Some v => Some v
       | None => if existsb (fun key => String.eqb key k) extra_keys
                 then Some dash else None
       end.
Proof.
  split; [reflexivity|]. unfold filter. cbn [snd]. apply (fold_step extra_keys).
Qed.

End Filter.

(** A record with a request id and nothing else. *)
Example filter_sample :
  map (getattr (snd (filter "-"%string [("request_id", "abc")]%string)))
      ["request_id"; "status"; "levelname"]%string
  = [Some "abc"; Some "-"; None]%string.
Proof. reflexivity. Qed.

End MiddlewareProps.
